(** * Presenter layer of the schema-driven admin UI

    A shallow embedding of the two presenter hooks of the repository,
    [useListPresenter] and [useFormPresenter], together with the
    primitives of [useBasePage] they call, and the properties of the
    specification settled against them.

    How the hooks are read.  A hook body runs once per render.  Inside
    it, [state] is a constant: the snapshot of the React state for that
    render.  Every callback the hook builds ([loadData], [loadMore],
    [handleFieldChange], ...) closes over that snapshot.  The only way
    a callback changes the state is [setState(prev => ...)], an updater
    applied to the state React holds at that moment.  The embedding
    keeps the two apart: each operation takes the snapshot it closed
    over (the argument called [state], as in the source) and transforms
    a [World] that holds the state React owns ([store]) and the trace
    of calls made to the collaborators.

    An [async] operation is a tree of steps ([M]): it can be run to
    completion against the use cases ([run]) or only up to its first
    [await] ([start]), which is how two calls made one after the other
    in the same tick are told apart from two calls in sequence.  The
    [useEffect] blocks of the hooks only call these operations (on
    mount, on a route change) and are not part of the embedding. *)

From Stdlib Require Import ZArith String Ascii List Bool Lia.
From stdpp Require Import base gmap strings list pretty.

Open Scope Z_scope.

(** ** JavaScript values *)

Module JS.

(** Field values of a record are JavaScript primitives.  Numbers are
    modelled by the integers together with [VNaN]. *)
Inductive Value :=
| VUndefined
| VNull
| VBool (b : bool)
| VNum (n : Z)
| VNaN
| VStr (s : string).

#[global] Instance Value_eq_dec : EqDecision Value.
Proof. solve_decision. Defined.

(** [!!value] *)
Definition truthy (v : Value) : bool :=
  match v with
  | VUndefined | VNull | VNaN => false
  | VBool b => b
  | VNum n => negb (n =? 0)
  | VStr s => negb (String.eqb s "")
  end.

(** [a === b] on primitives; [NaN] is not equal to itself. *)
Definition strict_eq (a b : Value) : bool :=
  match a, b with
  | VNaN, _ | _, VNaN => false
  | _, _ => bool_decide (a = b)
  end.

Definition is_ws (c : ascii) : bool :=
  let n := nat_of_ascii c in
  ((9 <=? n) && (n <=? 13))%nat || (n =? 32)%nat.

Fixpoint trimStart (s : string) : string :=
  match s with
  | EmptyString => EmptyString
  | String c s' => if is_ws c then trimStart s' else s
  end.

(** [s.trim()] *)
Definition trim (s : string) : string :=
  String.rev (trimStart (String.rev (trimStart s))).

Definition digit_of (c : ascii) : option Z :=
  let n := nat_of_ascii c in
  if ((48 <=? n) && (n <=? 57))%nat then Some (Z.of_nat n - 48) else None.

Fixpoint parse_digits (acc : Z) (s : string) : option Z :=
  match s with
  | EmptyString => Some acc
  | String c s' =>
      match digit_of c with
      | Some d => parse_digits (10 * acc + d) s'
      | None => None
      end
  end.

(** [Number(s)] for a string, within the integer model: surrounding
    white space is dropped, the empty string is [0], a signed run of
    decimal digits is its value and everything else is [NaN] ([None]). *)
Definition string_to_number (s : string) : option Z :=
  match trim s with
  | EmptyString => Some 0
  | String "-" (String c r) => Z.opp <$> parse_digits 0 (String c r)
  | String "+" (String c r) => parse_digits 0 (String c r)
  | String c r => parse_digits 0 (String c r)
  end.

(** [Number(value)]; [None] stands for [NaN]. *)
Definition Number (v : Value) : option Z :=
  match v with
  | VUndefined | VNaN => None
  | VNull => Some 0
  | VBool b => Some (if b then 1 else 0)
  | VNum n => Some n
  | VStr s => string_to_number s
  end.

(** [value.length]: defined on strings only among the primitives. *)
Definition length_of (v : Value) : option Z :=
  match v with
  | VStr s => Some (Z.of_nat (String.length s))
  | _ => None
  end.

(** [`${value}`] *)
Definition to_string (v : Value) : string :=
  match v with
  | VUndefined => "undefined"
  | VNull => "null"
  | VBool true => "true"
  | VBool false => "false"
  | VNum n => pretty n
  | VNaN => "NaN"
  | VStr s => s
  end.

(** [object[field]]: a missing key reads as [undefined]. *)
Definition get (o : gmap string Value) (f : string) : Value :=
  default VUndefined (o !! f).

End JS.

Import JS.

(** ** Schemas, route parameters and the application context *)

Record FieldConfig := {
  type : string;
  required : bool;
  maxLength : option Z;
  min : option Z;
  max : option Z;
}.

(** [fields] lists the entries of the schema's [fields] object in the
    order [Object.entries] yields them; a schema without [fields] has
    the empty list ([schema.fields || {}]). *)
Record Schema := {
  collection : string;
  fields : list (string * FieldConfig);
}.

Record Context := {
  schemas : option (list Schema);
}.

Record Params := {
  p_collection : option string;
  p_id : option string;
}.

(** [params?.collection || ""] *)
Definition getCollectionName (params : Params) : string :=
  default "" (p_collection params).

(** [context.schemas?.find((s) => s.collection === getCollectionName())] *)
Definition find_schema (context : Context) (params : Params) : option Schema :=
  match schemas context with
  | None => None
  | Some ss =>
      List.find (fun s => String.eqb (collection s) (getCollectionName params)) ss
  end.

(** ** The schema-driven validator ([validateForm]) *)

Module Validator.

Record Validation := {
  isValid : bool;
  errors : gmap string string;
}.

(** [fieldConfig.maxLength && ...]: [0] and a missing bound are falsy. *)
Definition maxLength_set (cfg : FieldConfig) : option Z :=
  match maxLength cfg with
  | Some n => if n =? 0 then None else Some n
  | None => None
  end.

Definition required_rule (fieldName : string) (cfg : FieldConfig)
    (value : Value) (errors : gmap string string) : gmap string string :=
  if required cfg && (negb (truthy value) || strict_eq value (VStr ""))
  then <[fieldName := fieldName +:+ " is required"]> errors
  else errors.

Definition string_rule (fieldName : string) (cfg : FieldConfig)
    (value : Value) (errors : gmap string string) : gmap string string :=
  if String.eqb (type cfg) "String" then
    match maxLength_set cfg with
    | Some n =>
        if truthy value then
          match length_of value with
          | Some len =>
              if n <? len
              then <[fieldName := fieldName +:+ " must be less than "
                                    +:+ pretty n +:+ " characters"]> errors
              else errors
          | None => errors
          end
        else errors
    | None => errors
    end
  else errors.

Definition number_rule (fieldName : string) (cfg : FieldConfig)
    (value : Value) (errors : gmap string string) : gmap string string :=
  if String.eqb (type cfg) "Number"
     && negb (bool_decide (value = VUndefined))
     && negb (bool_decide (value = VNull))
  then
    match Number value with
    | None => <[fieldName := fieldName +:+ " must be a valid number"]> errors
    | Some numValue =>
        let max_check :=
          match max cfg with
          | Some hi =>
              if hi <? numValue
              then <[fieldName := fieldName +:+ " must be at most " +:+ pretty hi]> errors
              else errors
          | None => errors
          end in
        match min cfg with
        | Some lo =>
            if numValue <? lo
            then <[fieldName := fieldName +:+ " must be at least " +:+ pretty lo]> errors
            else max_check
        | None => max_check
        end
    end
  else errors.

(** The body of the [forEach] over [Object.entries(fields)]. *)
Definition validate_field (object : gmap string Value)
    (errors : gmap string string) (entry : string * FieldConfig)
    : gmap string string :=
  let '(fieldName, fieldConfig) := entry in
  let value := JS.get object fieldName in
  number_rule fieldName fieldConfig value
    (string_rule fieldName fieldConfig value
       (required_rule fieldName fieldConfig value errors)).

Definition validateForm (context : Context) (params : Params)
    (object : gmap string Value) : Validation :=
  match find_schema context params with
  | None => {| isValid := true; errors := ∅ |}
  | Some schema =>
      let errors := foldl (validate_field object) ∅ (fields schema) in
      {| isValid := (size errors =? 0)%nat; errors := errors |}
  end.

End Validator.

(** ** Collaborators and effects *)

(** A [where] condition on one field: a plain value, the regular
    expression match that quick search builds, or an [$or] group whose
    alternatives are the single-key objects [{ [f]: condition }]. *)
#[warnings="-register-all"] Inductive Cond :=
| CValue (v : Value)
| CRegex (regex options : string)
| COr (alternatives : list (string * Cond)).

Record Query := {
  q_where : gmap string Cond;
  q_limit : Z;
  q_skip : Z;
  q_sort : gmap string Z;
}.

(** A thrown value: a string or an object with an optional [message]. *)
Inductive Error :=
| ErrString (s : string)
| ErrObject (message : option string).

Record Dialog := {
  d_message : string;
  d_title : string;
  d_confirmText : string;
  d_cancelText : option string;
  d_type : string;
}.

(** The awaited calls of a presenter: the five use cases and the
    confirm dialog of [useBasePage]. *)
Inductive Call :=
| Find (collection : string) (query : Query)
| Count (collection : string) (cond : gmap string Cond)
| Delete (collection : string) (id : string)
| Get (collection : string) (id : string)
| Upsert (collection : string) (object : gmap string Value)
| ShowDialog (d : Dialog).

(** What the promise of a call resolves to. *)
Definition Result (c : Call) : Type :=
  match c with
  | Find _ _ => list (gmap string Value)
  | Count _ _ => Z
  | Delete _ _ => unit
  | Get _ _ => gmap string Value
  | Upsert _ _ => gmap string Value
  | ShowDialog _ => bool
  end.

(** What a presenter does to the outside, in the order it does it:
    awaited calls, and the fire-and-forget toast and navigation. *)
Inductive Event :=
| ECall (c : Call)
| EToast (message : string) (type : string)
| ENavigate (path : string).

Definition is_find (e : Event) : bool :=
  match e with ECall (Find _ _) => true | _ => false end.
Definition is_count (e : Event) : bool :=
  match e with ECall (Count _ _) => true | _ => false end.
Definition is_delete (e : Event) : bool :=
  match e with ECall (Delete _ _) => true | _ => false end.
Definition is_get (e : Event) : bool :=
  match e with ECall (Get _ _) => true | _ => false end.
Definition is_upsert (e : Event) : bool :=
  match e with ECall (Upsert _ _) => true | _ => false end.
Definition is_dialog (e : Event) : bool :=
  match e with ECall (ShowDialog _) => true | _ => false end.

Definition kind_of (c : Call) : Event → bool :=
  match c with
  | Find _ _ => is_find
  | Count _ _ => is_count
  | Delete _ _ => is_delete
  | Get _ _ => is_get
  | Upsert _ _ => is_upsert
  | ShowDialog _ => is_dialog
  end.

(** Number of calls of one kind in a trace. *)
Definition calls (kind : Event → bool) (tr : list Event) : nat :=
  length (List.filter kind tr).

(** An awaited promise either resolves or rejects. *)
Inductive Outcome (A : Type) :=
| Resolved (a : A)
| Rejected (e : Error).
Arguments Resolved {A} a.
Arguments Rejected {A} e.

(** The injected use cases and the user in front of the dialogs.  Each
    answer may depend on how many calls of that kind came before, so
    that "the k-th call fails" can be said. *)
Record Env := {
  findObjects : nat → string → Query → Outcome (list (gmap string Value));
  countObjects : nat → string → gmap string Cond → Outcome Z;
  deleteObject : nat → string → string → Outcome unit;
  getObject : nat → string → string → Outcome (gmap string Value);
  upsertObject : nat → string → gmap string Value → Outcome (gmap string Value);
  confirms : nat → Dialog → bool;
}.

Definition answer (env : Env) (n : nat) (c : Call) : Outcome (Result c) :=
  match c return Outcome (Result c) with
  | Find collection query => findObjects env n collection query
  | Count collection cond => countObjects env n collection cond
  | Delete collection id => deleteObject env n collection id
  | Get collection id => getObject env n collection id
  | Upsert collection object => upsertObject env n collection object
  | ShowDialog d => Resolved (confirms env n d)
  end.

(** The body of an [async] function over a hook whose state has type
    [S]: it returns, throws, queues a state update, tells the outside
    something, or suspends on an awaited call and goes on with what the
    promise settles to. *)
Inductive M (S A : Type) : Type :=
| Ret (a : A)
| Throw (e : Error)
| SetState (f : S → S) (k : M S A)
| Tell (e : Event) (k : M S A)
| Await (c : Call) (k : Outcome (Result c) → M S A).
Arguments Ret {S A} a.
Arguments Throw {S A} e.
Arguments SetState {S A} f k.
Arguments Tell {S A} e k.
Arguments Await {S A} c k.

Fixpoint bind {S A B} (m : M S A) (f : A → M S B) : M S B :=
  match m with
  | Ret a => f a
  | Throw e => Throw e
  | SetState g k => SetState g (bind k f)
  | Tell e k => Tell e (bind k f)
  | Await c k => Await c (λ r, bind (k r) f)
  end.

#[global] Instance M_ret {S} : MRet (M S) := λ A a, Ret a.
#[global] Instance M_bind {S} : MBind (M S) := λ A B f m, bind m f.

(** [try { body } catch (error) { handler }] *)
Fixpoint try_catch {S A} (body : M S A) (handler : Error → M S A) : M S A :=
  match body with
  | Ret a => Ret a
  | Throw e => handler e
  | SetState g k => SetState g (try_catch k handler)
  | Tell e k => Tell e (try_catch k handler)
  | Await c k => Await c (λ r, try_catch (k r) handler)
  end.

(** [setState(prev => f(prev))] *)
Definition setState {S} (f : S → S) : M S unit :=
  SetState f (Ret tt).

Definition emit {S} (e : Event) : M S unit :=
  Tell e (Ret tt).

(** [await useCase.execute(...)]: the settled value is returned, a
    rejection is thrown. *)
Definition await {S} (c : Call) : M S (Result c) :=
  Await c (λ r, match r with
                | Resolved a => Ret a
                | Rejected e => Throw e
                end).

(** [for (const x of xs) { await body(x) }] *)
Fixpoint for_of {S A} (xs : list A) (body : A → M S unit) : M S unit :=
  match xs with
  | [] => mret tt
  | x :: xs' => body x ;; for_of xs' body
  end.

(** The React state of the hook and the trace of what the presenter
    did to the outside. *)
Record World (S : Type) := {
  store : S;
  trace : list Event;
}.
Arguments store {S} w.
Arguments trace {S} w.

Definition update {S} (f : S → S) (w : World S) : World S :=
  {| store := f (store w); trace := trace w |}.

Definition record {S} (e : Event) (w : World S) : World S :=
  {| store := store w; trace := trace w ++ [e] |}.

(** An operation run to completion, every awaited call answered by the
    environment as soon as it is made. *)
Fixpoint run {S A} (env : Env) (m : M S A) (w : World S) : Outcome A * World S :=
  match m with
  | Ret a => (Resolved a, w)
  | Throw e => (Rejected e, w)
  | SetState f k => run env k (update f w)
  | Tell e k => run env k (record e w)
  | Await c k =>
      run env (k (answer env (calls (kind_of c) (trace w)) c)) (record (ECall c) w)
  end.

(** An operation run up to its first [await]: either it is over, or the
    call has been made and the rest waits for the promise to settle. *)
Inductive Suspended (S A : Type) : Type :=
| Finished (r : Outcome A)
| Waiting (c : Call) (k : Outcome (Result c) → M S A).
Arguments Finished {S A} r.
Arguments Waiting {S A} c k.

Fixpoint start {S A} (m : M S A) (w : World S) : Suspended S A * World S :=
  match m with
  | Ret a => (Finished (Resolved a), w)
  | Throw e => (Finished (Rejected e), w)
  | SetState f k => start k (update f w)
  | Tell e k => start k (record e w)
  | Await c k => (Waiting c k, record (ECall c) w)
  end.

(** The call a suspended operation waits for, if any. *)
Definition waits_for {S A} (t : Suspended S A) : option Call :=
  match t with
  | Finished _ => None
  | Waiting c _ => Some c
  end.

(** *** [useBasePage] *)

Module BasePage.
Section BasePage.
Context {S : Type}.

Definition showConfirmDialog (message title confirmText : string)
    (cancelText : option string) (type : string) : M S bool :=
  await (ShowDialog {| d_message := message; d_title := title;
                       d_confirmText := confirmText;
                       d_cancelText := cancelText; d_type := type |}).

(** [typeof error === "string" ? error : error.message || "An error occurred"] *)
Definition error_message (error : Error) : string :=
  match error with
  | ErrString s => s
  | ErrObject (Some m) => if String.eqb m "" then "An error occurred" else m
  | ErrObject None => "An error occurred"
  end.

Definition showError (error : Error) : M S bool :=
  showConfirmDialog (error_message error) "Error" "OK" None "danger".

Definition showToast (message type : string) : M S unit :=
  emit (EToast message type).

Definition navigate (path : string) : M S unit :=
  emit (ENavigate path).
End BasePage.
End BasePage.

(** ** The List Presenter ([useListPresenter]) *)

Module ListPresenter.

Record ListState := {
  loading : bool;
  objects : list (gmap string Value);
  selected : list string;
  count : Z;
  current : Z;
  limit : Z;
  search : string;
  filters : gmap string Cond;
  sort : gmap string Z;
}.

(** The argument of [useState]. *)
Definition initial : ListState := {|
  loading := true;
  objects := [];
  selected := [];
  count := 0;
  current := 1;
  limit := 20;
  search := "";
  filters := ∅;
  sort := {[ "created" := -1 ]};
|}.

(** The partial objects handed to [setStatePartial], as the functions
    [prev => ({ ...prev, ...updates })] they stand for. *)
Definition set_loading (b : bool) (prev : ListState) : ListState :=
  {| loading := b; objects := objects prev; selected := selected prev;
     count := count prev; current := current prev; limit := limit prev;
     search := search prev; filters := filters prev; sort := sort prev |}.

Definition set_current (n : Z) (prev : ListState) : ListState :=
  {| loading := loading prev; objects := objects prev; selected := selected prev;
     count := count prev; current := n; limit := limit prev;
     search := search prev; filters := filters prev; sort := sort prev |}.

Definition set_search (value : string) (prev : ListState) : ListState :=
  {| loading := loading prev; objects := objects prev; selected := selected prev;
     count := count prev; current := current prev; limit := limit prev;
     search := value; filters := filters prev; sort := sort prev |}.

(** [{ objects, count, loading: false }] *)
Definition set_loaded (objs : list (gmap string Value)) (n : Z)
    (prev : ListState) : ListState :=
  {| loading := false; objects := objs; selected := selected prev;
     count := n; current := current prev; limit := limit prev;
     search := search prev; filters := filters prev; sort := sort prev |}.

(** [{ ...prev, current: 1, objects: [], selected: [] }] *)
Definition set_reset (prev : ListState) : ListState :=
  {| loading := loading prev; objects := []; selected := [];
     count := count prev; current := 1; limit := limit prev;
     search := search prev; filters := filters prev; sort := sort prev |}.

Section Hook.
(** The arguments of the hook and what [useBasePage] hands to it. *)
Context (params : Params) (context : Context).

Definition setStatePartial (updates : ListState → ListState) : M ListState unit :=
  setState updates.

(** [Object.entries(schema?.fields || {}).filter(...).map(...)] *)
Definition search_fields (search : string) : list (string * Cond) :=
  let entries :=
    match find_schema context params with
    | Some schema => fields schema
    | None => []
    end in
  List.map (λ e, (fst e, CRegex search "i"))
    (List.filter (λ e, String.eqb (type (snd e)) "String") entries).

Definition buildWhere (state : ListState) : gmap string Cond :=
  if String.eqb (trim (search state)) "" then filters state
  else filters state ∪ {[ "$or" := COr (search_fields (search state)) ]}.

Definition loadData (state : ListState) : M ListState unit :=
  try_catch
    (setStatePartial (set_loading true) ;;
     let collection := getCollectionName params in
     let cond := buildWhere state in
     objs ← await (Find collection
                     {| q_where := cond; q_limit := limit state;
                        q_skip := (current state - 1) * limit state;
                        q_sort := sort state |}) ;
     n ← await (Count collection cond) ;
     setStatePartial (set_loaded (objects state ++ objs) n))
    (λ error,
       setStatePartial (set_loading false) ;;
       BasePage.showError error ;;
       mret tt).

Definition loadMore (state : ListState) : M ListState unit :=
  if negb (loading state) then
    setStatePartial (set_current (current state + 1)) ;;
    loadData state
  else mret tt.

Definition reset : M ListState unit :=
  setState set_reset.

Definition handleDelete (state : ListState) (id : string) : M ListState unit :=
  try_catch
    (confirmed ← BasePage.showConfirmDialog
                   "Are you sure you want to delete this item?"
                   "Confirm Delete" "Delete" (Some "Cancel") "danger" ;
     if confirmed : bool then
       await (Delete (getCollectionName params) id) ;;
       BasePage.showToast "Item deleted successfully" "success" ;;
       reset ;;
       loadData state
     else mret tt)
    (λ error, BasePage.showError error ;; mret tt).

Definition handleBulkDelete (state : ListState) : M ListState unit :=
  let selected := selected state in
  if (length selected =? 0)%nat then
    BasePage.showToast "No items selected" "warning"
  else
    try_catch
      (confirmed ← BasePage.showConfirmDialog
                     ("Are you sure you want to delete "
                        +:+ pretty (length selected) +:+ " selected items?")
                     "Confirm Bulk Delete" "Delete All" (Some "Cancel") "danger" ;
       if confirmed : bool then
         for_of selected (λ id,
           await (Delete (getCollectionName params) id)) ;;
         BasePage.showToast
           (pretty (length selected) +:+ " items deleted successfully") "success" ;;
         reset ;;
         loadData state
       else mret tt)
      (λ error, BasePage.showError error ;; mret tt).

(** *** Timers and the debounced search *)

(** A pending [setTimeout]: the callback [() => { reset(); loadData(); }]
    is determined by the snapshot its [loadData] closed over. *)
Record Timer := {
  timer_id : positive;
  due : nat;
  closure : ListState;
}.

(** The page at run time: the world of the hook, the clock in
    milliseconds, the pending timers and [searchTimeoutRef.current]. *)
Record Runtime := {
  world : World ListState;
  now : nat;
  next_id : positive;
  timers : list Timer;
  searchTimeoutRef : option positive;
}.

Definition clearTimeout (id : positive) (rt : Runtime) : Runtime :=
  {| world := world rt; now := now rt; next_id := next_id rt;
     timers := List.filter (λ t, negb (Pos.eqb (timer_id t) id)) (timers rt);
     searchTimeoutRef := searchTimeoutRef rt |}.

Definition setTimeout (cb : ListState) (delay : nat) (rt : Runtime)
    : positive * Runtime :=
  (next_id rt,
   {| world := world rt; now := now rt; next_id := Pos.succ (next_id rt);
      timers := timers rt ++ [{| timer_id := next_id rt;
                                 due := (now rt + delay)%nat;
                                 closure := cb |}];
      searchTimeoutRef := searchTimeoutRef rt |}).

Definition on_world (f : World ListState → World ListState) (rt : Runtime)
    : Runtime :=
  {| world := f (world rt); now := now rt; next_id := next_id rt;
     timers := timers rt; searchTimeoutRef := searchTimeoutRef rt |}.

(** Timer identifiers are positive, so [if (searchTimeoutRef.current)]
    holds exactly when a timer was ever stored. *)
Definition handleSearchChange (state : ListState) (value : string)
    (rt : Runtime) : Runtime :=
  let rt1 :=
    match searchTimeoutRef rt with
    | Some id => clearTimeout id rt
    | None => rt
    end in
  let rt2 := on_world (update (set_search value)) rt1 in
  let '(id, rt3) := setTimeout state 500 rt2 in
  {| world := world rt3; now := now rt3; next_id := next_id rt3;
     timers := timers rt3; searchTimeoutRef := Some id |}.

(** The timer callback of [handleSearchChange]. *)
Definition search_callback (state : ListState) : M ListState unit :=
  reset ;; loadData state.

(** The clock reaches [t]: every pending timer that is due fires, in
    the order the timers were set; the use cases of [env] answer the
    reload of each. *)
Definition advance (env : Env) (t : nat) (rt : Runtime) : Runtime :=
  let fired := List.filter (λ tm, (due tm <=? t)%nat) (timers rt) in
  let kept := List.filter (λ tm, negb (due tm <=? t)%nat) (timers rt) in
  {| world := foldl (λ w tm, snd (run env (search_callback (closure tm)) w))
                (world rt) fired;
     now := t; next_id := next_id rt; timers := kept;
     searchTimeoutRef := searchTimeoutRef rt |}.

(** A page right after mount, at time [0], with no timer set. *)
Definition mounted (s : ListState) : Runtime :=
  {| world := {| store := s; trace := [] |}; now := 0; next_id := 1%positive;
     timers := []; searchTimeoutRef := None |}.

(** A burst of keystrokes: each is a time, the snapshot of the render
    whose handler is invoked, and the value typed. *)
Fixpoint keystrokes (env : Env) (strokes : list (nat * ListState * string))
    (rt : Runtime) : Runtime :=
  match strokes with
  | [] => rt
  | (t, state, value) :: rest =>
      keystrokes env rest (handleSearchChange state value (advance env t rt))
  end.





(** The query [loadData] sends from a snapshot. *)
Definition query_of (state : ListState) : Query :=
  {| q_where := buildWhere state; q_limit := limit state;
     q_skip := (current state - 1) * limit state;
     q_sort := sort state |}.

End Hook.
End ListPresenter.

(** ** The Form Presenter ([useFormPresenter]) *)

Module FormPresenter.

Record FormState := {
  loading : bool;
  object : gmap string Value;
  change : gmap string Value;
  advanced : bool;
  dirty : bool;
  submitting : bool;
}.

(** The argument of [useState]. *)
Definition initial : FormState := {|
  loading := true;
  object := ∅;
  change := ∅;
  advanced := false;
  dirty := false;
  submitting := false;
|}.

Definition set_loading (b : bool) (prev : FormState) : FormState :=
  {| loading := b; object := object prev; change := change prev;
     advanced := advanced prev; dirty := dirty prev;
     submitting := submitting prev |}.

(** [{ object, loading: false }] *)
Definition set_loaded (o : gmap string Value) (prev : FormState) : FormState :=
  {| loading := false; object := o; change := change prev;
     advanced := advanced prev; dirty := dirty prev;
     submitting := submitting prev |}.

(** [{ object: newObject, change: newChange, dirty: true }] *)
Definition set_changed (newObject newChange : gmap string Value)
    (prev : FormState) : FormState :=
  {| loading := loading prev; object := newObject; change := newChange;
     advanced := advanced prev; dirty := true;
     submitting := submitting prev |}.

Definition set_submitting (b : bool) (prev : FormState) : FormState :=
  {| loading := loading prev; object := object prev; change := change prev;
     advanced := advanced prev; dirty := dirty prev;
     submitting := b |}.

(** [{ dirty: false, submitting: false }] *)
Definition set_saved (prev : FormState) : FormState :=
  {| loading := loading prev; object := object prev; change := change prev;
     advanced := advanced prev; dirty := false;
     submitting := false |}.

Section Hook.
Context (params : Params) (context : Context).

Definition setStatePartial (updates : FormState → FormState) : M FormState unit :=
  setState updates.

(** [id && id !== "new"] *)
Definition existing_id : option string :=
  match p_id params with
  | Some id =>
      if negb (String.eqb id "") && negb (String.eqb id "new")
      then Some id else None
  | None => None
  end.

Definition loadData : M FormState unit :=
  match existing_id with
  | Some id =>
      try_catch
        (setStatePartial (set_loading true) ;;
         o ← await (Get (getCollectionName params) id) ;
         setStatePartial (set_loaded o))
        (λ error,
           setStatePartial (set_loading false) ;;
           BasePage.showError error ;;
           mret tt)
  | None => setStatePartial (set_loading false)
  end.

Definition handleFieldChange (state : FormState) (field : string)
    (value : Value) : M FormState unit :=
  let newChange := <[field := value]> (change state) in
  let newObject := <[field := value]> (object state) in
  setStatePartial (set_changed newObject newChange).

Definition validateForm (state : FormState) : Validator.Validation :=
  Validator.validateForm context params (object state).

(** [id === "new"] *)
Definition is_new : bool :=
  match p_id params with
  | Some id => String.eqb id "new"
  | None => false
  end.

Definition handleSubmit (state : FormState) : M FormState unit :=
  if submitting state then mret tt
  else
    let validation := validateForm state in
    if negb (Validator.isValid validation) then
      BasePage.showToast "Please fix validation errors" "error"
    else
      setStatePartial (set_submitting true) ;;
      try_catch
        (result ← await (Upsert (getCollectionName params) (object state)) ;
         BasePage.showToast "Data saved successfully" "success" ;;
         setStatePartial set_saved ;;
         if is_new then
           BasePage.navigate
             ("/collections/" +:+ getCollectionName params +:+ "/form/"
                +:+ to_string (JS.get result "id"))
         else mret tt)
        (λ error,
           setStatePartial (set_submitting false) ;;
           BasePage.showError error ;;
           mret tt).

Definition handleCancel (state : FormState) : M FormState unit :=
  if dirty state then
    confirmed ← BasePage.showConfirmDialog
                  "You have unsaved changes. Are you sure you want to leave?"
                  "Unsaved Changes" "Leave" (Some "Stay") "default" ;
    if confirmed : bool then
      BasePage.navigate ("/collections/" +:+ getCollectionName params)
    else mret tt
  else BasePage.navigate ("/collections/" +:+ getCollectionName params).

End Hook.
End FormPresenter.

(** ** Sample schemas, pages and collaborators

    The concrete inputs at which the properties below are evaluated. *)

Module Fixtures.

(** A collection [users] with one required string field [name]. *)
Definition name_field : FieldConfig :=
  {| type := "String"; required := true; maxLength := Some 80;
     min := None; max := None |}.

Definition users_schema : Schema :=
  {| collection := "users"; fields := [("name", name_field)] |}.

Definition users_context : Context :=
  {| schemas := Some [users_schema] |}.

Definition users_params : Params :=
  {| p_collection := Some "users"; p_id := Some "new" |}.

(** The edit route [/collections/users/form/42]. *)
Definition user42_params : Params :=
  {| p_collection := Some "users"; p_id := Some "42" |}.

Definition user42 : gmap string Value :=
  {[ "id" := VStr "42"; "name" := VStr "Old"; "email" := VStr "old@example.com" ]}.

(** The form after [user42] was loaded. *)
Definition user42_loaded : FormPresenter.FormState :=
  FormPresenter.set_loaded user42 FormPresenter.initial.

(** The render after the user changed [name] to ["New"]. *)
Definition user42_edited : FormPresenter.FormState :=
  FormPresenter.set_changed
    (<["name" := VStr "New"]> user42) {[ "name" := VStr "New" ]} user42_loaded.

(** A collection [items] with a required number field [qty], at least 1. *)
Definition qty_field : FieldConfig :=
  {| type := "Number"; required := true; maxLength := None;
     min := Some 1; max := None |}.

Definition items_schema : Schema :=
  {| collection := "items"; fields := [("qty", qty_field)] |}.

Definition items_context : Context :=
  {| schemas := Some [items_schema] |}.

Definition items_params : Params :=
  {| p_collection := Some "items"; p_id := Some "new" |}.

Definition zero_qty : FormPresenter.FormState :=
  FormPresenter.set_changed {[ "qty" := VNum 0 ]} {[ "qty" := VNum 0 ]}
    FormPresenter.initial.

(** A collection [posts] with a string field and a number field. *)
Definition plain (ty : string) : FieldConfig :=
  {| type := ty; required := false; maxLength := None;
     min := None; max := None |}.

Definition posts_schema : Schema :=
  {| collection := "posts";
     fields := [("title", plain "String"); ("views", plain "Number")] |}.

Definition posts_context : Context :=
  {| schemas := Some [posts_schema] |}.

Definition posts_params : Params :=
  {| p_collection := Some "posts"; p_id := None |}.

Definition post (id : string) : gmap string Value :=
  {[ "id" := VStr id ]}.

(** Use cases that always succeed: every page fetched holds the post
    ["b"], the collection counts 2 posts, saving echoes the object, and
    the user confirms every dialog. *)
Definition happy_env : Env :=
  {| findObjects := λ _ _ _, Resolved [post "b"];
     countObjects := λ _ _ _, Resolved 2;
     deleteObject := λ _ _ _, Resolved tt;
     getObject := λ _ _ _, Resolved user42;
     upsertObject := λ _ _ o, Resolved o;
     confirms := λ _ _, true |}.

(** The same, except that the second delete call is rejected. *)
Definition second_delete_fails : Env :=
  {| findObjects := findObjects happy_env;
     countObjects := countObjects happy_env;
     deleteObject := λ n _ _,
       if (n =? 1)%nat then Rejected (ErrObject (Some "gone")) else Resolved tt;
     getObject := getObject happy_env;
     upsertObject := upsertObject happy_env;
     confirms := confirms happy_env |}.

(** The list on page 1 with the post ["a"] loaded and no load running. *)
Definition one_post : ListPresenter.ListState :=
  ListPresenter.set_loaded [post "a"] 2 ListPresenter.initial.

(** The same list with three rows selected. *)
Definition three_selected : ListPresenter.ListState :=
  {| ListPresenter.loading := false;
     ListPresenter.objects := [post "a"; post "b"; post "c"];
     ListPresenter.selected := ["a"; "b"; "c"];
     ListPresenter.count := 3;
     ListPresenter.current := 1;
     ListPresenter.limit := 20;
     ListPresenter.search := "";
     ListPresenter.filters := ∅;
     ListPresenter.sort := {[ "created" := -1 ]} |}.

End Fixtures.

(** ** Statements of the specification that are compared with the code *)

Module Claims.
Import Validator.

(** The message of the required-field rule. *)
Definition required_message (f : string) : string := f +:+ " is required".

(** The required-field claim as the specification words it: a required
    field holding [0] or [false] is reported with the required-field
    error. *)
Definition falsy_reported_as_required : Prop :=
  ∀ (context : Context) (params : Params) (schema : Schema)
    (state : FormPresenter.FormState) (f : string) (cfg : FieldConfig),
    find_schema context params = Some schema →
    (f, cfg) ∈ fields schema →
    required cfg = true →
    JS.get (FormPresenter.object state) f = VNum 0
      ∨ JS.get (FormPresenter.object state) f = VBool false →
    errors (FormPresenter.validateForm params context state) !! f
      = Some (required_message f).

(** What [validateForm] leaves in [errors[f]] for a required field [f]
    that holds [0] or [false]: the number rule runs after the required
    rule and sees the number [0]. *)
Definition falsy_message (f : string) (cfg : FieldConfig) : string :=
  if String.eqb (type cfg) "Number" then
    match min cfg, max cfg with
    | Some lo, Some hi =>
        if 0 <? lo then f +:+ " must be at least " +:+ pretty lo
        else if hi <? 0 then f +:+ " must be at most " +:+ pretty hi
        else required_message f
    | Some lo, None =>
        if 0 <? lo then f +:+ " must be at least " +:+ pretty lo
        else required_message f
    | None, Some hi =>
        if hi <? 0 then f +:+ " must be at most " +:+ pretty hi
        else required_message f
    | None, None => required_message f
    end
  else required_message f.

(** The confirm dialog [handleBulkDelete] opens for [n] selected rows. *)
Definition bulk_delete_dialog (n : nat) : Dialog :=
  {| d_message := "Are you sure you want to delete " +:+ pretty n
                    +:+ " selected items?";
     d_title := "Confirm Bulk Delete";
     d_confirmText := "Delete All";
     d_cancelText := Some "Cancel";
     d_type := "danger" |}.

(** The dialog [showError] opens for a thrown value. *)
Definition error_dialog (error : Error) : Dialog :=
  {| d_message := BasePage.error_message error;
     d_title := "Error";
     d_confirmText := "OK";
     d_cancelText := None;
     d_type := "danger" |}.

(** The update the specification expects [handleSubmit] to send when
    editing: [{ id, ...change }]. *)
Definition partial_update (id : string) (state : FormPresenter.FormState)
    : gmap string Value :=
  FormPresenter.change state ∪ {[ "id" := VStr id ]}.

(** The invariant of the specification, [dirty == (change is non-empty)]. *)
Definition dirty_tracks_change (s : FormPresenter.FormState) : Prop :=
  FormPresenter.dirty s = negb (bool_decide (FormPresenter.change s = ∅)).

(** The dirty flag as the specification words it for [handleFieldChange]:
    true exactly when the updated object differs from the snapshot [o]
    the form was loaded with. *)
Definition dirty_is_structural_diff : Prop :=
  ∀ (o : gmap string Value) (state : FormPresenter.FormState)
    (f : string) (v : Value),
    FormPresenter.object state = o →
    let s' := store (snd (start (FormPresenter.handleFieldChange state f v)
                            {| store := state; trace := [] |})) in
    FormPresenter.dirty s' = true ↔ FormPresenter.object s' ≠ o.

End Claims.

(** ** What the further properties are stated with *)

Module Shapes.

(** A string made of white space only. *)
Fixpoint all_ws (s : string) : bool :=
  match s with
  | EmptyString => true
  | String c s' => is_ws c && all_ws s'
  end.


(** The error the validator leaves for a [Number] field holding the
    number [n], the required rule aside: the lower bound is looked at
    first. *)
Definition range_verdict (f : string) (cfg : FieldConfig) (n : Z)
    : option string :=
  match min cfg, max cfg with
  | Some lo, Some hi =>
      if n <? lo then Some (f +:+ " must be at least " +:+ pretty lo)
      else if hi <? n then Some (f +:+ " must be at most " +:+ pretty hi)
      else None
  | Some lo, None =>
      if n <? lo then Some (f +:+ " must be at least " +:+ pretty lo) else None
  | None, Some hi =>
      if hi <? n then Some (f +:+ " must be at most " +:+ pretty hi) else None
  | None, None => None
  end.

(** The confirm dialog of [handleDelete]. *)
Definition delete_dialog : Dialog :=
  {| d_message := "Are you sure you want to delete this item?";
     d_title := "Confirm Delete";
     d_confirmText := "Delete";
     d_cancelText := Some "Cancel";
     d_type := "danger" |}.

(** The confirm dialog of [handleCancel]. *)
Definition unsaved_dialog : Dialog :=
  {| d_message := "You have unsaved changes. Are you sure you want to leave?";
     d_title := "Unsaved Changes";
     d_confirmText := "Leave";
     d_cancelText := Some "Stay";
     d_type := "default" |}.

(** At most one timer is pending, and [searchTimeoutRef] names it. *)
Definition single_timer (rt : ListPresenter.Runtime) : Prop :=
  ListPresenter.timers rt = []
  ∨ ∃ tm, ListPresenter.timers rt = [tm]
          ∧ ListPresenter.searchTimeoutRef rt = Some (ListPresenter.timer_id tm).

(** The state a form shows once [handleFieldChange(f, v)] from the
    snapshot [state] has been applied to it. *)
Definition edited (state : FormPresenter.FormState) (f : string) (v : Value)
    : FormPresenter.FormState :=
  store (snd (start (FormPresenter.handleFieldChange state f v)
                {| store := state; trace := [] |})).

(** Use cases and users that refuse. *)
Definition declining_env : Env :=
  {| findObjects := findObjects Fixtures.happy_env;
     countObjects := countObjects Fixtures.happy_env;
     deleteObject := deleteObject Fixtures.happy_env;
     getObject := getObject Fixtures.happy_env;
     upsertObject := upsertObject Fixtures.happy_env;
     confirms := λ _ _, false |}.

Definition offline : Error := ErrObject (Some "offline").

Definition failing_env : Env :=
  {| findObjects := λ _ _ _, Rejected offline;
     countObjects := λ _ _ _, Rejected offline;
     deleteObject := λ _ _ _, Rejected offline;
     getObject := λ _ _ _, Rejected offline;
     upsertObject := λ _ _ _, Rejected offline;
     confirms := λ _ _, true |}.

(** Saving echoes the object with the id [7] the server assigned. *)
Definition assigning_env : Env :=
  {| findObjects := findObjects Fixtures.happy_env;
     countObjects := countObjects Fixtures.happy_env;
     deleteObject := deleteObject Fixtures.happy_env;
     getObject := getObject Fixtures.happy_env;
     upsertObject := λ _ _ o, Resolved (<["id" := VNum 7]> o);
     confirms := confirms Fixtures.happy_env |}.

(** The find use case answers, the count use case does not. *)
Definition count_fails_env : Env :=
  {| findObjects := findObjects Fixtures.happy_env;
     countObjects := λ _ _ _, Rejected offline;
     deleteObject := deleteObject Fixtures.happy_env;
     getObject := getObject Fixtures.happy_env;
     upsertObject := upsertObject Fixtures.happy_env;
     confirms := confirms Fixtures.happy_env |}.

(** A collection [notes] whose [title] is an optional string of at most
    5 characters and whose [stars] is an optional number from 1 to 5. *)
Definition title_field : FieldConfig :=
  {| type := "String"; required := false; maxLength := Some 5;
     min := None; max := None |}.

Definition stars_field : FieldConfig :=
  {| type := "Number"; required := false; maxLength := None;
     min := Some 1; max := Some 5 |}.

Definition notes_schema : Schema :=
  {| collection := "notes";
     fields := [("title", title_field); ("stars", stars_field)] |}.

Definition notes_context : Context :=
  {| schemas := Some [notes_schema] |}.

Definition notes_params : Params :=
  {| p_collection := Some "notes"; p_id := Some "new" |}.

Definition note (o : gmap string Value) : FormPresenter.FormState :=
  FormPresenter.set_loaded o FormPresenter.initial.

End Shapes.

(** * Properties *)

(** ** The validator *)

Module ValidatorFacts.
Import Validator Claims Fixtures.

Lemma required_rule_other f g cfg v (errs : gmap string string) :
  g ≠ f → required_rule g cfg v errs !! f = errs !! f.
Proof.
  intros Hne. unfold required_rule.
  destruct (required cfg && _); [by rewrite lookup_insert_ne|done].
Qed.

Lemma string_rule_other f g cfg v (errs : gmap string string) :
  g ≠ f → string_rule g cfg v errs !! f = errs !! f.
Proof.
  intros Hne. unfold string_rule.
  repeat (case_match; try done); by rewrite lookup_insert_ne.
Qed.

Lemma number_rule_other f g cfg v (errs : gmap string string) :
  g ≠ f → number_rule g cfg v errs !! f = errs !! f.
Proof.
  intros Hne. unfold number_rule.
  repeat (case_match; try done); by rewrite lookup_insert_ne.
Qed.

(** A schema entry only ever writes [errors] under its own name. *)
Lemma validate_field_other object f g cfg (errs : gmap string string) :
  g ≠ f → validate_field object errs (g, cfg) !! f = errs !! f.
Proof.
  intros Hne. unfold validate_field.
  by rewrite number_rule_other, string_rule_other, required_rule_other.
Qed.

Lemma validate_fields_other object f entries (errs : gmap string string) :
  f ∉ entries.*1 →
  foldl (validate_field object) errs entries !! f = errs !! f.
Proof.
  revert errs. induction entries as [|[g cfg] entries IH]; intros errs Hf; [done|].
  cbn [foldl]. rewrite IH.
  - apply validate_field_other. intros ->. apply Hf. cbn. left.
  - intros Hin. apply Hf. cbn. by right.
Qed.

(** What an entry leaves under its own name depends on [errors] only
    through what was there. *)
Lemma validate_field_own object f cfg (errs1 errs2 : gmap string string) :
  errs1 !! f = errs2 !! f →
  validate_field object errs1 (f, cfg) !! f
    = validate_field object errs2 (f, cfg) !! f.
Proof.
  intros Heq. unfold validate_field, number_rule, string_rule, required_rule.
  repeat (case_match; try done); by rewrite ?lookup_insert_eq.
Qed.

(** With distinct field names, [errors[f]] is decided by the entry of
    [f] alone. *)
Lemma validate_fields_lookup object f cfg entries (errs : gmap string string) :
  NoDup entries.*1 →
  (f, cfg) ∈ entries →
  foldl (validate_field object) errs entries !! f
    = validate_field object errs (f, cfg) !! f.
Proof.
  revert errs. induction entries as [|[g c] entries IH]; intros errs Hnd Hin.
  - by apply elem_of_nil in Hin.
  - cbn in Hnd. apply NoDup_cons in Hnd as [Hg Hnd].
    apply elem_of_cons in Hin as [Heq|Hin].
    + inversion Heq; subst g c. cbn [foldl].
      by rewrite validate_fields_other.
    + assert (g ≠ f) as Hne.
      { intros ->. apply Hg. apply list_elem_of_fmap. by exists (f, cfg). }
      cbn [foldl]. rewrite IH by done.
      apply validate_field_own. by apply validate_field_other.
Qed.

(** An error under any name makes the form invalid. *)
Lemma validateForm_invalid context params schema object f msg :
  find_schema context params = Some schema →
  errors (validateForm context params object) !! f = Some msg →
  isValid (validateForm context params object) = false.
Proof.
  unfold validateForm. intros -> Hf. cbn in *.
  apply Nat.eqb_neq. intros Hsz. apply map_size_empty_iff in Hsz.
  rewrite Hsz in Hf. by rewrite lookup_empty in Hf.
Qed.

(** C7: [validateForm] on the empty object against a schema whose only
    field is a required string field [name] answers [isValid = false]
    with [errors.name] bound to the (non-empty) message
    ["name is required"] and nothing else; when no schema matches the
    collection it answers [isValid = true] with the empty error map. *)
Theorem validateForm_empty_object :
  (∀ (context : Context) (params : Params) (schema : Schema)
     (cfg : FieldConfig) (state : FormPresenter.FormState),
     find_schema context params = Some schema →
     fields schema = [("name", cfg)] →
     type cfg = "String" →
     required cfg = true →
     FormPresenter.object state = ∅ →
     FormPresenter.validateForm params context state
       = {| isValid := false; errors := {[ "name" := "name is required" ]} |}
     ∧ "name is required" ≠ "")
  ∧ (∀ (context : Context) (params : Params) (state : FormPresenter.FormState),
     find_schema context params = None →
     FormPresenter.validateForm params context state
       = {| isValid := true; errors := ∅ |}).
Proof.
  split.
  - intros context params schema cfg state Hs Hf Ht Hr Ho. split; [|done].
    unfold FormPresenter.validateForm, validateForm. rewrite Hs, Hf, Ho.
    cbn [foldl]. unfold validate_field, number_rule, string_rule, required_rule.
    rewrite Ht, Hr. cbn.
    destruct (maxLength_set cfg); reflexivity.
  - intros context params state Hs.
    unfold FormPresenter.validateForm, validateForm. by rewrite Hs.
Qed.

Lemma validateForm_empty_object_witness :
  (FormPresenter.validateForm users_params
     users_context FormPresenter.initial
     = {| isValid := false; errors := {[ "name" := "name is required" ]} |}
   ∧ "name is required" ≠ "")
  ∧ FormPresenter.validateForm users_params
      {| schemas := Some [] |} FormPresenter.initial
      = {| isValid := true; errors := ∅ |}.
Proof.
  split.
  - apply (proj1 validateForm_empty_object
             users_context users_params
             users_schema name_field FormPresenter.initial); reflexivity.
  - apply (proj2 validateForm_empty_object
             {| schemas := Some [] |} users_params FormPresenter.initial).
    reflexivity.
Defined.

(** What the entry of a required field leaves under its name when the
    value is the number [0] or the boolean [false]. *)
Lemma validate_field_falsy object f cfg (errs : gmap string string) :
  required cfg = true →
  JS.get object f = VNum 0 ∨ JS.get object f = VBool false →
  validate_field object errs (f, cfg) !! f = Some (falsy_message f cfg).
Proof.
  intros Hr Hv. unfold validate_field, falsy_message.
  assert (required_rule f cfg (JS.get object f) errs
          = <[f := required_message f]> errs) as ->.
  { unfold required_rule. rewrite Hr. by destruct Hv as [-> | ->]. }
  assert (string_rule f cfg (JS.get object f) (<[f := required_message f]> errs)
          = <[f := required_message f]> errs) as ->.
  { unfold string_rule. destruct Hv as [-> | ->]; cbn;
      repeat (case_match; try done). }
  unfold number_rule.
  destruct (String.eqb (type cfg) "Number"); cbn [andb];
    [|by rewrite lookup_insert_eq].
  assert (Number (JS.get object f) = Some 0) as ->
    by (by destruct Hv as [-> | ->]).
  assert (negb (bool_decide (JS.get object f = VUndefined))
          && negb (bool_decide (JS.get object f = VNull)) = true) as ->
    by (by destruct Hv as [-> | ->]).
  destruct (min cfg) as [lo|], (max cfg) as [hi|];
    repeat (case_match; try done); by rewrite lookup_insert_eq.
Qed.

(** C9, as amended: for a required field [f] of the matched schema
    (field names distinct), whenever [object[f]] is the number [0] or
    the boolean [false] the form is invalid and [errors[f]] is bound;
    the message is the required-field one, except for a field of type
    [Number] whose [min] is above [0] or whose [max] is below [0],
    where the range message of the number rule replaces it. *)
Theorem falsy_required_field_is_reported
    (context : Context) (params : Params) (schema : Schema)
    (state : FormPresenter.FormState) (f : string) (cfg : FieldConfig) :
  find_schema context params = Some schema →
  NoDup (fields schema).*1 →
  (f, cfg) ∈ fields schema →
  required cfg = true →
  JS.get (FormPresenter.object state) f = VNum 0
    ∨ JS.get (FormPresenter.object state) f = VBool false →
  isValid (FormPresenter.validateForm params context state) = false
  ∧ errors (FormPresenter.validateForm params context state) !! f
      = Some (falsy_message f cfg).
Proof.
  intros Hs Hnd Hin Hr Hv.
  assert (errors (FormPresenter.validateForm params context state) !! f
          = Some (falsy_message f cfg)) as He.
  { unfold FormPresenter.validateForm, validateForm. rewrite Hs. cbn.
    rewrite (validate_fields_lookup _ f cfg) by done.
    by apply validate_field_falsy. }
  split; [|done].
  by eapply validateForm_invalid.
Qed.

Lemma falsy_required_field_is_reported_witness :
  isValid (FormPresenter.validateForm items_params
             items_context zero_qty) = false
  ∧ errors (FormPresenter.validateForm items_params
              items_context zero_qty) !! "qty"
      = Some "qty must be at least 1".
Proof.
  apply (falsy_required_field_is_reported
           items_context items_params items_schema
           zero_qty "qty" qty_field).
  - reflexivity.
  - cbn. apply NoDup_cons. split; [apply not_elem_of_nil | apply NoDup_nil_2].
  - cbn. apply list_elem_of_here.
  - reflexivity.
  - left. reflexivity.
Defined.

(** C9, as worded, fails: a required [Number] field with [min: 1]
    holding [0] ends with the range message, not the required-field
    one. *)
Lemma falsy_reported_as_required_fails : ¬ falsy_reported_as_required.
Proof.
  intros H.
  specialize (H items_context items_params items_schema
                zero_qty "qty" qty_field).
  assert (errors (FormPresenter.validateForm items_params
                    items_context zero_qty) !! "qty"
          = Some "qty must be at least 1") as He by reflexivity.
  rewrite H in He.
  - discriminate He.
  - reflexivity.
  - cbn. apply list_elem_of_here.
  - reflexivity.
  - left. reflexivity.
Qed.

End ValidatorFacts.

(** ** Running operations *)

Module RunFacts.

Lemma calls_app kind (tr1 tr2 : list Event) :
  calls kind (tr1 ++ tr2) = (calls kind tr1 + calls kind tr2)%nat.
Proof. unfold calls. by rewrite List.filter_app, length_app. Qed.

Lemma run_bind {S A B} env (m : M S A) (f : A → M S B) (w : World S) :
  run env (m ≫= f) w =
    match run env m w with
    | (Resolved a, w') => run env (f a) w'
    | (Rejected e, w') => (Rejected e, w')
    end.
Proof.
  revert w. induction m as [a|e|g k IH|e k IH|c k IH]; intros w; cbn; auto.
  apply IH.
Qed.

Lemma run_try_catch {S A} env (m : M S A) (h : Error → M S A) (w : World S) :
  run env (try_catch m h) w =
    match run env m w with
    | (Resolved a, w') => (Resolved a, w')
    | (Rejected e, w') => run env (h e) w'
    end.
Proof.
  revert w. induction m as [a|e|g k IH|e k IH|c k IH]; intros w; cbn; auto.
Qed.

Lemma run_await {S} env (c : Call) (w : World S) :
  run env (await c) w =
    (answer env (calls (kind_of c) (trace w)) c, record (ECall c) w).
Proof. cbn. by destruct (answer env _ c). Qed.

Lemma calls_delete_record {S} (w : World S) collection id :
  calls is_delete (trace (record (ECall (Delete collection id)) w))
    = Datatypes.S (calls is_delete (trace w)).
Proof. unfold record. cbn [trace]. rewrite calls_app. cbn. lia. Qed.

(** What the sequential loop of delete calls leaves behind when its
    [m]-th call (counting from 0) is the first to be rejected: the
    calls up to and including that one were made, nothing else
    happened. *)
Lemma run_for_of_rejected {S} env (collection : string) (ids : list string)
    (m : nat) (err : Error) (w : World S) :
  (∀ j id, (j < m)%nat → ids !! j = Some id →
     deleteObject env (calls is_delete (trace w) + j) collection id = Resolved tt) →
  (∃ id, ids !! m = Some id
     ∧ deleteObject env (calls is_delete (trace w) + m) collection id
         = Rejected err) →
  run env (for_of ids (λ id, await (Delete collection id))) w =
    (Rejected err,
     {| store := store w;
        trace := trace w
                   ++ ((λ id, ECall (Delete collection id)) <$> take (Datatypes.S m) ids) |}).
Proof.
  revert m w.
  induction ids as [|id ids IH]; intros m w Hok (x & Hx & Hfail).
  - by rewrite lookup_nil in Hx.
  - cbn [for_of].
    change (run env (await (Delete collection id)
                       ≫= λ _, for_of ids (λ id, await (Delete collection id))) w = ?r)
      with (run env (await (Delete collection id)
                       ≫= λ _, for_of ids (λ id, await (Delete collection id))) w = r).
    rewrite run_bind, run_await. cbn [kind_of answer].
    destruct m as [|m].
    + cbn in Hx. injection Hx as ->. rewrite Nat.add_0_r in Hfail.
      rewrite Hfail. done.
    + rewrite <- (Nat.add_0_r (calls is_delete (trace w))).
      rewrite (Hok 0%nat id) by (done || lia).
      rewrite (IH m).
      * cbn. by rewrite <- app_assoc.
      * intros j y Hj Hy. rewrite calls_delete_record.
        replace (Datatypes.S (calls is_delete (trace w)) + j)%nat
          with (calls is_delete (trace w) + Datatypes.S j)%nat by lia.
        apply Hok; [lia|done].
      * exists x. split; [done|]. rewrite calls_delete_record.
        replace (Datatypes.S (calls is_delete (trace w)) + m)%nat
          with (calls is_delete (trace w) + Datatypes.S m)%nat by lia.
        done.
Qed.

End RunFacts.

(** ** The List Presenter *)

Module ListFacts.
Import ListPresenter Claims Fixtures RunFacts.

(** *** [loadData] *)

(** A load whose two use-case calls succeed: whatever [current] is, the
    page is appended to the objects of the snapshot, and [count] is the
    answer of the count use case. *)
Lemma loadData_success env params context state (w : World ListState)
    (objs : list (gmap string Value)) (n : Z) :
  findObjects env (calls is_find (trace w)) (getCollectionName params)
    (query_of params context state) = Resolved objs →
  countObjects env (calls is_count (trace w)) (getCollectionName params)
    (buildWhere params context state) = Resolved n →
  run env (loadData params context state) w
    = (Resolved tt,
       {| store := set_loaded (objects state ++ objs) n (set_loading true (store w));
          trace := trace w
                     ++ [ECall (Find (getCollectionName params)
                                  (query_of params context state));
                         ECall (Count (getCollectionName params)
                                  (buildWhere params context state))] |}).
Proof.
  intros Hfind Hcount. unfold loadData, query_of in *.
  cbn -[calls buildWhere getCollectionName].
  rewrite Hfind. cbn -[calls buildWhere getCollectionName].
  rewrite calls_app. cbn -[buildWhere getCollectionName].
  rewrite Nat.add_0_r. fold (calls is_count (trace w)). rewrite Hcount.
  cbn -[buildWhere getCollectionName]. unfold record, update. cbn [store trace].
  by rewrite <- app_assoc.
Qed.

(** C1, at an input where it fails: the list is on page 1
    ([current = 1]) with the post ["a"] loaded; the load succeeds with
    the page [["b"]] and the count 2.  The objects end as [["a"; "b"]]:
    the page was appended, not put in place of the old objects.  The
    count is the one the count use case answered. *)
Theorem loadData_page_one_appends :
  let w' := snd (run happy_env (loadData posts_params posts_context one_post)
                   {| store := one_post; trace := [] |}) in
  current one_post = 1
  ∧ objects one_post = [post "a"]
  ∧ objects (store w') = [post "a"; post "b"]
  ∧ objects (store w') ≠ [post "b"]
  ∧ count (store w') = 2.
Proof. cbn. repeat split; try reflexivity. discriminate. Qed.

(** The reload after a delete does not help: [reset()] empties the
    objects React holds, but [loadData] then writes back the objects of
    its snapshot, the deleted row included. *)
Lemma handleDelete_keeps_old_rows :
  objects (store (snd (run happy_env
                         (handleDelete posts_params posts_context one_post "a")
                         {| store := one_post; trace := [] |})))
  = [post "a"; post "b"].
Proof. reflexivity. Qed.

(** *** [loadMore] *)

(** While the snapshot says [loading], [loadMore] does nothing at all. *)
Lemma loadMore_while_loading params context state :
  loading state = true → loadMore params context state = Ret tt.
Proof. intros H. unfold loadMore. by rewrite H. Qed.

(** Otherwise it sets [current] to the snapshot's [current] plus one,
    raises [loading] and suspends on the find call of [loadData]. *)
Lemma loadMore_idle params context state (w : World ListState) :
  loading state = false →
  waits_for (fst (start (loadMore params context state) w))
    = Some (Find (getCollectionName params) (query_of params context state))
  ∧ snd (start (loadMore params context state) w)
    = {| store := set_loading true (set_current (current state + 1) (store w));
         trace := trace w ++ [ECall (Find (getCollectionName params)
                                       (query_of params context state))] |}.
Proof. intros H. unfold loadMore. rewrite H. cbn. done. Qed.

(** C6, at an input where it fails: two [loadMore] calls made one after
    the other from the same render, whose snapshot has
    [loading = false].  The first call raises [loading] in the state
    React holds and suspends on its find call; the second, made while
    that request is pending, reads [loading] from the same snapshot,
    passes the guard and suspends on a find call of its own: two page
    requests are in flight. *)
Theorem loadMore_twice_in_one_render :
  let first := start (loadMore posts_params posts_context one_post)
                 {| store := one_post; trace := [] |} in
  let second := start (loadMore posts_params posts_context one_post) (snd first) in
  loading one_post = false
  ∧ waits_for (fst first)
      = Some (Find "posts" (query_of posts_params posts_context one_post))
  ∧ loading (store (snd first)) = true
  ∧ waits_for (fst second)
      = Some (Find "posts" (query_of posts_params posts_context one_post))
  ∧ calls is_find (trace (snd second)) = 2%nat
  ∧ current (store (snd second)) = 2.
Proof. cbn. repeat split; reflexivity. Qed.

(** *** [handleSearchChange] *)







(** C5, at an input where it fails: on a mounted page whose [search] is
    empty, the user types ["foo"] once and waits.  The timer fires
    after 500ms and reloads once, but with the query of the render the
    handler was created in, where [search] was still empty: the
    condition sent is [{}], although the state holds [search = "foo"]
    and the condition for that value is the [$or] over [title]. *)
Theorem debounced_reload_ignores_typed_value :
  let rt := advance posts_params posts_context happy_env 500
              (handleSearchChange one_post "foo" (mounted one_post)) in
  search (store (world rt)) = "foo"
  ∧ calls is_find (trace (world rt)) = 1%nat
  ∧ trace (world rt) !! 0%nat
      = Some (ECall (Find "posts"
                 {| q_where := ∅; q_limit := 20; q_skip := 0;
                    q_sort := {[ "created" := -1 ]} |}))
  ∧ buildWhere posts_params posts_context (store (world rt))
      = {[ "$or" := COr [("title", CRegex "foo" "i")] ]}
  ∧ buildWhere posts_params posts_context (store (world rt)) ≠ ∅.
Proof. cbn. repeat split; try reflexivity. discriminate. Qed.

(** The same with re-renders between the keystrokes ["f"], ["fo"],
    ["foo"]: the reload searches for ["fo"], the value of the render
    the last handler was created in. *)
Lemma debounced_reload_one_keystroke_behind :
  let rt := advance posts_params posts_context happy_env 700
              (keystrokes posts_params posts_context happy_env
                 [(0%nat, one_post, "f");
                  (100%nat, set_search "f" one_post, "fo");
                  (200%nat, set_search "fo" one_post, "foo")]
                 (mounted one_post)) in
  search (store (world rt)) = "foo"
  ∧ calls is_find (trace (world rt)) = 1%nat
  ∧ q_where <$> (match trace (world rt) !! 0%nat with
                 | Some (ECall (Find _ q)) => Some q
                 | _ => None
                 end)
      = Some {[ "$or" := COr [("title", CRegex "fo" "i")] ]}.
Proof. cbn. repeat split; reflexivity. Qed.

(** *** [handleBulkDelete] *)

(** C10: with an empty selection [handleBulkDelete] shows the warning
    toast and returns at once, before any [await]: no confirm dialog is
    opened, no delete call is made and the state (objects, selected,
    count, current and the rest) is what it was. *)
Theorem handleBulkDelete_empty_selection
    (params : Params) (context : Context) (state : ListState)
    (w : World ListState) :
  selected state = [] →
  start (handleBulkDelete params context state) w
    = (Finished (Resolved tt), record (EToast "No items selected" "warning") w)
  ∧ (∀ env, run env (handleBulkDelete params context state) w
            = (Resolved tt, record (EToast "No items selected" "warning") w))
  ∧ store (record (EToast "No items selected" "warning") w) = store w
  ∧ trace (record (EToast "No items selected" "warning") w)
      = trace w ++ [EToast "No items selected" "warning"].
Proof.
  intros Hsel. unfold handleBulkDelete. rewrite Hsel. cbn. done.
Qed.

Lemma handleBulkDelete_empty_selection_witness :
  start (handleBulkDelete posts_params posts_context initial)
    {| store := initial; trace := [] |}
  = (Finished (Resolved tt),
     {| store := initial; trace := [EToast "No items selected" "warning"] |}).
Proof.
  apply (handleBulkDelete_empty_selection posts_params posts_context initial
           {| store := initial; trace := [] |}).
  reflexivity.
Defined.

(** C8: a confirmed bulk delete over the [n] selected ids whose [k]-th
    delete call is the first to fail ([1 < k <= n]): the confirm dialog
    was answered, the first [k-1] deletions were made and succeeded, the
    [k]-th was made and rejected, exactly one error dialog was opened by
    [showError], and nothing else happened: no later delete, no toast,
    no [reset()] and no [loadData()], so the state, its non-empty
    [selected] included, is what it was. *)
Theorem handleBulkDelete_fails_midway
    (env : Env) (params : Params) (context : Context)
    (state s0 : ListState) (k : nat) (err : Error) :
  (1 < k ≤ length (selected state))%nat →
  confirms env 0 (bulk_delete_dialog (length (selected state))) = true →
  (∀ j id, (j < k - 1)%nat → selected state !! j = Some id →
     deleteObject env j (getCollectionName params) id = Resolved tt) →
  (∀ id, selected state !! (k - 1)%nat = Some id →
     deleteObject env (k - 1) (getCollectionName params) id = Rejected err) →
  run env (handleBulkDelete params context state) {| store := s0; trace := [] |}
    = (Resolved tt,
       {| store := s0;
          trace := ECall (ShowDialog (bulk_delete_dialog (length (selected state))))
                   :: ((λ id, ECall (Delete (getCollectionName params) id))
                         <$> take k (selected state))
                   ++ [ECall (ShowDialog (error_dialog err))] |})
  ∧ selected state ≠ [].
Proof.
  intros [Hk1 Hkn] Hconfirm Hok Hfail.
  assert (selected state ≠ []) as Hne.
  { intros Heq. rewrite Heq in Hkn. cbn in Hkn. lia. }
  split; [|done].
  unfold handleBulkDelete.
  destruct (length (selected state) =? 0)%nat eqn:Hlen.
  { apply Nat.eqb_eq in Hlen. lia. }
  rewrite run_try_catch.
  unfold BasePage.showConfirmDialog at 1.
  fold (bulk_delete_dialog (length (selected state))).
  rewrite run_bind.
  rewrite (run_await env (ShowDialog (bulk_delete_dialog (length (selected state))))).
  cbn [kind_of answer trace]. change (calls is_dialog []) with 0%nat.
  rewrite Hconfirm.
  rewrite run_bind.
  destruct (lookup_lt_is_Some_2 (selected state) (k - 1)) as [x Hx]; [lia|].
  rewrite (run_for_of_rejected env _ _ (k - 1) err).
  - replace (Datatypes.S (k - 1)) with k by lia.
    cbn. done.
  - intros j id Hj Hid. cbn. by apply Hok.
  - exists x. split; [done|]. cbn. by apply Hfail.
Qed.

Lemma handleBulkDelete_fails_midway_witness :
  run second_delete_fails
    (handleBulkDelete posts_params posts_context three_selected)
    {| store := three_selected; trace := [] |}
  = (Resolved tt,
     {| store := three_selected;
        trace := [ECall (ShowDialog (bulk_delete_dialog 3));
                  ECall (Delete "posts" "a");
                  ECall (Delete "posts" "b");
                  ECall (ShowDialog (error_dialog (ErrObject (Some "gone"))))] |})
  ∧ selected three_selected ≠ [].
Proof.
  apply (handleBulkDelete_fails_midway second_delete_fails posts_params
           posts_context three_selected three_selected 2
           (ErrObject (Some "gone"))).
  - cbn. lia.
  - reflexivity.
  - intros j id Hj Hid. destruct j as [|j]; [reflexivity | cbn in Hj; lia].
  - intros id Hid. reflexivity.
Defined.

End ListFacts.

(** ** The Form Presenter *)

Module FormFacts.
Import FormPresenter Claims Fixtures RunFacts.

(** *** [handleFieldChange] *)

(** C3, as amended: [handleFieldChange(f, v)] writes [v] into both
    [object[f]] and [change[f]] of the snapshot and sets [dirty] to
    true, always; no snapshot of the loaded object is kept and nothing
    is compared, so setting a field back to its loaded value leaves
    [dirty] true as well. *)
Theorem handleFieldChange_sets_dirty
    (state s0 : FormState) (tr : list Event) (f : string) (v : Value) :
  let w' := snd (start (handleFieldChange state f v) {| store := s0; trace := tr |}) in
  dirty (store w') = true
  ∧ object (store w') = <[f := v]> (object state)
  ∧ change (store w') = <[f := v]> (change state)
  ∧ JS.get (object (store w')) f = v
  ∧ change (store w') !! f = Some v
  ∧ trace w' = tr.
Proof.
  cbn. unfold JS.get. rewrite !lookup_insert_eq. done.
Qed.

(** C3, as worded, fails: the form is loaded with [user42], whose
    [name] is ["Old"]; [handleFieldChange("name", "Old")] leaves the
    object equal to the loaded one, and [dirty] is true. *)
Lemma dirty_is_structural_diff_fails : ¬ dirty_is_structural_diff.
Proof.
  intros H.
  specialize (H user42 user42_loaded "name" (VStr "Old") eq_refl).
  cbn in H. destruct H as [H _].
  apply H; reflexivity.
Qed.

(** *** [handleSubmit] *)

(** A submit that passes the guard and the validation suspends on the
    upsert call, and what it sends is the object of the snapshot,
    whether the route is ["new"] or an existing id. *)
Lemma handleSubmit_sends_object params context state (w : World FormState) :
  submitting state = false →
  Validator.isValid (validateForm params context state) = true →
  waits_for (fst (start (handleSubmit params context state) w))
    = Some (Upsert (getCollectionName params) (object state)).
Proof.
  intros Hs Hv. unfold handleSubmit. rewrite Hs, Hv. reflexivity.
Qed.

(** C2, at an input where it fails: the record [user42] (fields [id],
    [name], [email]) was loaded on its edit route and the user changed
    [name] to ["New"], so [change] is [{name: "New"}].  A successful
    [handleSubmit] sends the whole object, [email] included, and not
    [{id: "42", name: "New"}]. *)
Theorem handleSubmit_edit_sends_whole_object :
  let w' := snd (run happy_env
                   (handleSubmit user42_params users_context user42_edited)
                   {| store := user42_edited; trace := [] |}) in
  change user42_edited = {[ "name" := VStr "New" ]}
  ∧ trace w'
      = [ECall (Upsert "users"
                  {[ "id" := VStr "42"; "name" := VStr "New";
                     "email" := VStr "old@example.com" ]});
         EToast "Data saved successfully" "success"]
  ∧ partial_update "42" user42_edited
      = {[ "id" := VStr "42"; "name" := VStr "New" ]}
  ∧ object user42_edited ≠ partial_update "42" user42_edited.
Proof.
  cbn. repeat split; try reflexivity.
  intros H. apply (f_equal (λ m : gmap string Value, m !! "email")) in H.
  discriminate H.
Qed.

(** *** The [dirty] flag and the [change] map *)

Lemma initial_tracks_change : dirty_tracks_change initial.
Proof. reflexivity. Qed.

Lemma handleFieldChange_tracks_change state f v (w : World FormState) :
  dirty_tracks_change (store (snd (start (handleFieldChange state f v) w))).
Proof.
  unfold dirty_tracks_change. cbn.
  rewrite bool_decide_eq_false_2; [done|].
  apply insert_non_empty.
Qed.

Lemma loadData_tracks_change env params (w : World FormState) :
  dirty_tracks_change (store w) →
  dirty_tracks_change (store (snd (run env (loadData params) w))).
Proof.
  intros H. unfold loadData. destruct (existing_id params) as [id|]; [|done].
  cbn. destruct (getObject env _ _ _); done.
Qed.

(** A submit that is dropped, blocked by validation, or whose upsert is
    rejected leaves [dirty] and [change] as they were. *)
Lemma handleSubmit_failure_tracks_change env params context state
    (w : World FormState) (err : Error) :
  dirty_tracks_change (store w) →
  submitting state = true
    ∨ Validator.isValid (validateForm params context state) = false
    ∨ upsertObject env (calls is_upsert (trace w)) (getCollectionName params)
        (object state) = Rejected err →
  dirty_tracks_change (store (snd (run env (handleSubmit params context state) w))).
Proof.
  intros H Hcase. unfold handleSubmit.
  destruct (submitting state); [done|].
  destruct (Validator.isValid (validateForm params context state)); cbn -[calls].
  - destruct Hcase as [?|[?|Hrej]]; try done. by rewrite Hrej.
  - done.
Qed.

(** C4, at an input where it fails: [user42] is loaded, the user
    changes [name], and the submit succeeds.  The invariant holds up to
    the submit; the successful submit clears [dirty] and leaves
    [change] as it was, so [dirty] is false while [change] is not
    empty. *)
Theorem submit_success_keeps_change :
  let s1 := store (snd (start (handleFieldChange user42_loaded "name" (VStr "New"))
                          {| store := user42_loaded; trace := [] |})) in
  let s2 := store (snd (run happy_env (handleSubmit user42_params users_context s1)
                          {| store := s1; trace := [] |})) in
  dirty_tracks_change user42_loaded
  ∧ dirty_tracks_change s1
  ∧ dirty s2 = false
  ∧ change s2 = {[ "name" := VStr "New" ]}
  ∧ ¬ dirty_tracks_change s2.
Proof.
  cbn. repeat split; try reflexivity.
  unfold dirty_tracks_change. cbn. discriminate.
Qed.

End FormFacts.

(** ** More on the validator *)

Module ValidatorMore.
Import Validator Claims Fixtures Shapes ValidatorFacts.

Lemma notes_fields_distinct : NoDup (fields notes_schema).*1.
Proof.
  cbn. apply NoDup_cons. split.
  - intros H. apply list_elem_of_singleton in H. discriminate H.
  - apply NoDup_cons. split; [apply not_elem_of_nil | apply NoDup_nil_2].
Qed.

(** Only fields the schema declares are ever validated: an error is
    always under the name of a declared field, whatever the object
    holds under other names; and the form is valid exactly when there
    is no error. *)
Theorem errors_only_for_declared_fields
    (context : Context) (params : Params) (state : FormPresenter.FormState) :
  (∀ f msg,
     errors (FormPresenter.validateForm params context state) !! f = Some msg →
     ∃ schema cfg, find_schema context params = Some schema
                   ∧ (f, cfg) ∈ fields schema)
  ∧ (isValid (FormPresenter.validateForm params context state) = true
     ↔ errors (FormPresenter.validateForm params context state) = ∅).
Proof.
  unfold FormPresenter.validateForm, validateForm.
  destruct (find_schema context params) as [schema|] eqn:Hs; cbn.
  - split.
    + intros f msg Hf.
      destruct (decide (f ∈ (fields schema).*1)) as [Hin|Hout].
      * apply list_elem_of_fmap in Hin as ([g cfg] & -> & Hin).
        by exists schema, cfg.
      * rewrite validate_fields_other in Hf by done.
        by rewrite lookup_empty in Hf.
    + rewrite Nat.eqb_eq. apply map_size_empty_iff.
  - split; [|done]. intros f msg Hf. by rewrite lookup_empty in Hf.
Qed.

Lemma errors_only_for_declared_fields_witness :
  ∃ schema cfg, find_schema items_context items_params = Some schema
                ∧ ("qty", cfg) ∈ fields schema.
Proof.
  apply (proj1 (errors_only_for_declared_fields items_context items_params zero_qty)
           "qty" "qty must be at least 1").
  reflexivity.
Defined.

(** An optional field that is missing, [undefined] or [null] passes,
    whatever its type and bounds. *)
Theorem optional_absent_field_passes
    (context : Context) (params : Params) (schema : Schema)
    (state : FormPresenter.FormState) (f : string) (cfg : FieldConfig) :
  find_schema context params = Some schema →
  NoDup (fields schema).*1 →
  (f, cfg) ∈ fields schema →
  required cfg = false →
  JS.get (FormPresenter.object state) f = VUndefined
    ∨ JS.get (FormPresenter.object state) f = VNull →
  errors (FormPresenter.validateForm params context state) !! f = None.
Proof.
  intros Hs Hnd Hin Hr Hv.
  unfold FormPresenter.validateForm, validateForm. rewrite Hs. cbn.
  rewrite (validate_fields_lookup _ f cfg) by done.
  unfold validate_field, number_rule, string_rule, required_rule.
  rewrite Hr.
  destruct Hv as [-> | ->]; cbn; repeat case_bool_decide; try done; cbn;
    rewrite ?andb_false_r; cbn;
    repeat (case_match; try done); by rewrite ?lookup_empty.
Qed.

Lemma optional_absent_field_passes_witness :
  errors (FormPresenter.validateForm notes_params notes_context (note ∅)) !! "stars"
  = None.
Proof.
  apply (optional_absent_field_passes notes_context notes_params notes_schema
           (note ∅) "stars" stars_field).
  - reflexivity.
  - apply notes_fields_distinct.
  - cbn. apply list_elem_of_further, list_elem_of_here.
  - reflexivity.
  - left. reflexivity.
Defined.



(** A [Number] field holding a number is checked against [min] first
    and then [max]; within the bounds it passes, unless it is required
    and the number is [0]. *)
Theorem number_field_range_check
    (context : Context) (params : Params) (schema : Schema)
    (state : FormPresenter.FormState) (f : string) (cfg : FieldConfig)
    (n : Z) :
  find_schema context params = Some schema →
  NoDup (fields schema).*1 →
  (f, cfg) ∈ fields schema →
  type cfg = "Number" →
  JS.get (FormPresenter.object state) f = VNum n →
  required cfg = false ∨ n ≠ 0 →
  errors (FormPresenter.validateForm params context state) !! f
    = range_verdict f cfg n.
Proof.
  intros Hs Hnd Hin Ht Hv Hreq.
  unfold FormPresenter.validateForm, validateForm. rewrite Hs. cbn.
  rewrite (validate_fields_lookup _ f cfg) by done.
  unfold validate_field, number_rule, string_rule, required_rule, range_verdict.
  rewrite Ht, Hv. cbn. repeat case_bool_decide; try done. cbn.
  assert (required cfg && (negb (negb (n =? 0)) || false) = false) as ->.
  { destruct Hreq as [-> | Hn]; [done|].
    apply Z.eqb_neq in Hn. rewrite Hn. cbn. by rewrite andb_false_r. }
  destruct (min cfg) as [lo|], (max cfg) as [hi|];
    repeat (case_match; try done);
    by rewrite ?lookup_insert_eq, ?lookup_empty.
Qed.

Lemma number_field_range_check_witness :
  errors (FormPresenter.validateForm notes_params notes_context
            (note {[ "stars" := VNum 9 ]})) !! "stars"
  = Some "stars must be at most 5".
Proof.
  apply (number_field_range_check notes_context notes_params notes_schema
           (note {[ "stars" := VNum 9 ]}) "stars" stars_field 9).
  - reflexivity.
  - apply notes_fields_distinct.
  - cbn. apply list_elem_of_further, list_elem_of_here.
  - reflexivity.
  - reflexivity.
  - left. reflexivity.
Defined.

End ValidatorMore.

(** ** More on the List Presenter *)

Module ListMore.
Import ListPresenter Claims Fixtures Shapes RunFacts.

(** *** [buildWhere] *)

Lemma trimStart_empty s : trimStart s = "" ↔ all_ws s = true.
Proof.
  induction s as [|c s IH]; cbn; [done|].
  destruct (is_ws c); cbn; [done|]. split; discriminate.
Qed.

Lemma trimStart_all_ws s : all_ws (trimStart s) = true → trimStart s = "".
Proof.
  induction s as [|c s IH]; cbn; [done|].
  destruct (is_ws c) eqn:Hc; [done|]. cbn. by rewrite Hc.
Qed.

Lemma rev_app_empty s1 s2 : String.rev_app s1 s2 = "" → s1 = "" ∧ s2 = "".
Proof.
  revert s2. induction s1 as [|c s1 IH]; intros s2; cbn; [done|].
  intros H. apply IH in H as [_ H]. discriminate H.
Qed.

Lemma all_ws_rev_app s1 s2 :
  all_ws (String.rev_app s1 s2) = all_ws s1 && all_ws s2.
Proof.
  revert s2. induction s1 as [|c s1 IH]; intros s2; cbn; [done|].
  rewrite IH. cbn. destruct (is_ws c), (all_ws s1); done.
Qed.

(** [s.trim()] is empty exactly for the strings made of white space. *)
Lemma trim_empty s : trim s = "" ↔ all_ws s = true.
Proof.
  unfold trim, String.rev. split.
  - intros H. apply rev_app_empty in H as [H _].
    apply trimStart_empty in H. rewrite all_ws_rev_app in H.
    apply andb_true_iff in H as [H _].
    apply trimStart_all_ws in H. by apply trimStart_empty.
  - intros H. apply trimStart_empty in H. by rewrite H.
Qed.

(** A search made of white space only (the empty one included) is no
    search: the condition is the filters, unchanged. *)
Theorem buildWhere_blank_search
    (params : Params) (context : Context) (state : ListState) :
  all_ws (search state) = true →
  buildWhere params context state = filters state.
Proof.
  intros H. unfold buildWhere.
  apply trim_empty in H. by rewrite H.
Qed.

Lemma buildWhere_blank_search_witness :
  buildWhere posts_params posts_context (set_search "  " one_post) = ∅.
Proof.
  apply (buildWhere_blank_search posts_params posts_context
           (set_search "  " one_post)).
  reflexivity.
Defined.




(** Filters are never dropped or changed by the search: every filter is
    in the condition as it is, and apart from [$or] the condition has
    nothing else.  A filter named [$or] takes the place of the search
    group. *)
Theorem buildWhere_keeps_filters
    (params : Params) (context : Context) (state : ListState) :
  filters state ⊆ buildWhere params context state
  ∧ (∀ k, k ≠ "$or" →
       buildWhere params context state !! k = filters state !! k).
Proof.
  unfold buildWhere.
  destruct (String.eqb (trim (search state)) ""); split; try done.
  - apply map_union_subseteq_l.
  - intros k Hk. rewrite lookup_union, lookup_singleton_ne by done.
    by destruct (filters state !! k).
Qed.

Lemma buildWhere_keeps_filters_witness :
  buildWhere posts_params posts_context (set_search "foo" one_post) !! "status"
  = filters (set_search "foo" one_post) !! "status".
Proof.
  apply (proj2 (buildWhere_keeps_filters posts_params posts_context
                  (set_search "foo" one_post)) "status").
  discriminate.
Defined.

(** *** [loadData] *)

(** What a load does, by the answers of its two use cases. *)
Lemma run_loadData env params context state (w : World ListState) :
  run env (loadData params context state) w =
    match findObjects env (calls is_find (trace w)) (getCollectionName params)
            (query_of params context state) with
    | Rejected e =>
        (Resolved tt,
         {| store := set_loading false (store w);
            trace := trace w
                       ++ [ECall (Find (getCollectionName params)
                                    (query_of params context state));
                           ECall (ShowDialog (error_dialog e))] |})
    | Resolved objs =>
        match countObjects env (calls is_count (trace w)) (getCollectionName params)
                (buildWhere params context state) with
        | Rejected e =>
            (Resolved tt,
             {| store := set_loading false (store w);
                trace := trace w
                           ++ [ECall (Find (getCollectionName params)
                                        (query_of params context state));
                               ECall (Count (getCollectionName params)
                                        (buildWhere params context state));
                               ECall (ShowDialog (error_dialog e))] |})
        | Resolved n =>
            (Resolved tt,
             {| store := set_loaded (objects state ++ objs) n (store w);
                trace := trace w
                           ++ [ECall (Find (getCollectionName params)
                                        (query_of params context state));
                               ECall (Count (getCollectionName params)
                                        (buildWhere params context state))] |})
        end
    end.
Proof.
  unfold loadData, query_of.
  cbn -[calls buildWhere getCollectionName].
  match goal with
  | |- context [findObjects env ?n ?c ?q] =>
      destruct (findObjects env n c q) as [objs|e]
  end; cbn -[calls buildWhere getCollectionName].
  - rewrite calls_app. cbn -[buildWhere getCollectionName].
    rewrite Nat.add_0_r. fold (calls is_count (trace w)).
    match goal with
    | |- context [countObjects env ?n ?c ?q] =>
        destruct (countObjects env n c q) as [n'|e]
    end; cbn -[buildWhere getCollectionName];
      unfold record, update; cbn [store trace];
      by rewrite <- ?app_assoc.
  - unfold record, update. cbn [store trace]. by rewrite <- ?app_assoc.
Qed.


(** When the find call is rejected the count call is not made, one
    error dialog is shown and the list keeps its objects and count. *)
Theorem loadData_find_rejected
    (env : Env) (params : Params) (context : Context) (state : ListState)
    (w : World ListState) (err : Error) :
  findObjects env (calls is_find (trace w)) (getCollectionName params)
    (query_of params context state) = Rejected err →
  run env (loadData params context state) w
    = (Resolved tt,
       {| store := set_loading false (store w);
          trace := trace w
                     ++ [ECall (Find (getCollectionName params)
                                  (query_of params context state));
                         ECall (ShowDialog (error_dialog err))] |}).
Proof. intros H. by rewrite run_loadData, H. Qed.

Lemma loadData_find_rejected_witness :
  run failing_env (loadData posts_params posts_context one_post)
    {| store := one_post; trace := [] |}
  = (Resolved tt,
     {| store := set_loading false one_post;
        trace := [ECall (Find "posts" (query_of posts_params posts_context one_post));
                  ECall (ShowDialog (error_dialog offline))] |}).
Proof.
  apply (loadData_find_rejected failing_env posts_params posts_context one_post
           {| store := one_post; trace := [] |} offline).
  reflexivity.
Defined.

(** When the count call is rejected after a find that succeeded, the
    page that was fetched is thrown away: the objects and the count
    stay as they were, [loading] is cleared and one error dialog is
    shown. *)
Theorem loadData_count_rejected
    (env : Env) (params : Params) (context : Context) (state : ListState)
    (w : World ListState) (objs : list (gmap string Value)) (err : Error) :
  findObjects env (calls is_find (trace w)) (getCollectionName params)
    (query_of params context state) = Resolved objs →
  countObjects env (calls is_count (trace w)) (getCollectionName params)
    (buildWhere params context state) = Rejected err →
  run env (loadData params context state) w
    = (Resolved tt,
       {| store := set_loading false (store w);
          trace := trace w
                     ++ [ECall (Find (getCollectionName params)
                                  (query_of params context state));
                         ECall (Count (getCollectionName params)
                                  (buildWhere params context state));
                         ECall (ShowDialog (error_dialog err))] |}).
Proof. intros Hf Hc. by rewrite run_loadData, Hf, Hc. Qed.

Lemma loadData_count_rejected_witness :
  run count_fails_env (loadData posts_params posts_context one_post)
    {| store := one_post; trace := [] |}
  = (Resolved tt,
     {| store := set_loading false one_post;
        trace := [ECall (Find "posts" (query_of posts_params posts_context one_post));
                  ECall (Count "posts" ∅);
                  ECall (ShowDialog (error_dialog offline))] |}).
Proof.
  apply (loadData_count_rejected count_fails_env posts_params posts_context
           one_post {| store := one_post; trace := [] |} [post "b"] offline);
    reflexivity.
Defined.

(** *** [handleDelete] *)

Lemma calls_snoc kind (tr : list Event) (e : Event) :
  calls kind (tr ++ [e]) = (calls kind tr + (if kind e then 1 else 0))%nat.
Proof. rewrite calls_app. unfold calls. cbn. by destruct (kind e). Qed.

(** Nothing is deleted without the user's consent: when the confirm
    dialog is declined no delete call is made, no toast is shown and
    the list is left alone. *)
Theorem handleDelete_declined
    (env : Env) (params : Params) (context : Context) (state : ListState)
    (id : string) (w : World ListState) :
  confirms env (calls is_dialog (trace w)) delete_dialog = false →
  run env (handleDelete params context state id) w
    = (Resolved tt,
       {| store := store w;
          trace := trace w ++ [ECall (ShowDialog delete_dialog)] |}).
Proof.
  intros Hno. unfold handleDelete.
  rewrite run_try_catch. unfold BasePage.showConfirmDialog at 1.
  fold delete_dialog.
  rewrite run_bind, (run_await env (ShowDialog delete_dialog)).
  cbn [kind_of answer]. by rewrite Hno.
Qed.

Lemma handleDelete_declined_witness :
  run declining_env (handleDelete posts_params posts_context one_post "a")
    {| store := one_post; trace := [] |}
  = (Resolved tt,
     {| store := one_post; trace := [ECall (ShowDialog delete_dialog)] |}).
Proof.
  apply (handleDelete_declined declining_env posts_params posts_context
           one_post "a" {| store := one_post; trace := [] |}).
  reflexivity.
Defined.

(** A confirmed delete that the use case rejects shows one error dialog
    and stops there: no success toast, no [reset()], no reload, the
    list as it was. *)
Theorem handleDelete_rejected
    (env : Env) (params : Params) (context : Context) (state : ListState)
    (id : string) (w : World ListState) (err : Error) :
  confirms env (calls is_dialog (trace w)) delete_dialog = true →
  deleteObject env (calls is_delete (trace w)) (getCollectionName params) id
    = Rejected err →
  run env (handleDelete params context state id) w
    = (Resolved tt,
       {| store := store w;
          trace := trace w
                     ++ [ECall (ShowDialog delete_dialog);
                         ECall (Delete (getCollectionName params) id);
                         ECall (ShowDialog (error_dialog err))] |}).
Proof.
  intros Hyes Hdel. unfold handleDelete.
  rewrite run_try_catch. unfold BasePage.showConfirmDialog at 1.
  fold delete_dialog.
  rewrite run_bind, (run_await env (ShowDialog delete_dialog)).
  cbn [kind_of answer]. rewrite Hyes.
  rewrite run_bind, (run_await env (Delete (getCollectionName params) id)).
  cbn [kind_of answer]. unfold record. cbn [trace store].
  rewrite calls_snoc. cbn [is_delete]. rewrite Nat.add_0_r, Hdel.
  cbn -[getCollectionName]. unfold record. cbn [store trace].
  by rewrite <- !app_assoc.
Qed.

Lemma handleDelete_rejected_witness :
  run failing_env (handleDelete posts_params posts_context one_post "a")
    {| store := one_post; trace := [] |}
  = (Resolved tt,
     {| store := one_post;
        trace := [ECall (ShowDialog delete_dialog);
                  ECall (Delete "posts" "a");
                  ECall (ShowDialog (error_dialog offline))] |}).
Proof.
  apply (handleDelete_rejected failing_env posts_params posts_context
           one_post "a" {| store := one_post; trace := [] |} offline);
    reflexivity.
Defined.

(** A confirmed delete that succeeds shows the toast, resets and
    reloads.  The reload is the one of the render the handler belongs
    to: it asks for the page of that snapshot's [current] and, when it
    succeeds, the list ends on page 1 with nothing selected and with
    the snapshot's objects followed by the fetched page. *)
Theorem handleDelete_success
    (env : Env) (params : Params) (context : Context) (state : ListState)
    (id : string) (s0 : ListState)
    (objs : list (gmap string Value)) (n : Z) :
  confirms env 0 delete_dialog = true →
  deleteObject env 0 (getCollectionName params) id = Resolved tt →
  findObjects env 0 (getCollectionName params) (query_of params context state)
    = Resolved objs →
  countObjects env 0 (getCollectionName params) (buildWhere params context state)
    = Resolved n →
  run env (handleDelete params context state id) {| store := s0; trace := [] |}
    = (Resolved tt,
       {| store := set_loaded (objects state ++ objs) n (set_reset s0);
          trace := [ECall (ShowDialog delete_dialog);
                    ECall (Delete (getCollectionName params) id);
                    EToast "Item deleted successfully" "success";
                    ECall (Find (getCollectionName params)
                             (query_of params context state));
                    ECall (Count (getCollectionName params)
                             (buildWhere params context state))] |}).
Proof.
  intros Hyes Hdel Hfind Hcount. unfold handleDelete.
  rewrite run_try_catch. unfold BasePage.showConfirmDialog at 1.
  fold delete_dialog.
  rewrite run_bind, (run_await env (ShowDialog delete_dialog)).
  cbn [kind_of answer trace]. change (calls is_dialog []) with 0%nat.
  rewrite Hyes.
  rewrite run_bind, (run_await env (Delete (getCollectionName params) id)).
  cbn [kind_of answer record trace app].
  change (calls is_delete [ECall (ShowDialog delete_dialog)]) with 0%nat.
  rewrite Hdel.
  cbn -[getCollectionName loadData buildWhere].
  rewrite run_loadData. cbn [trace store update record].
  change (calls is_find _) with 0%nat. change (calls is_count _) with 0%nat.
  by rewrite Hfind, Hcount.
Qed.

Lemma handleDelete_success_witness :
  run happy_env (handleDelete posts_params posts_context one_post "a")
    {| store := one_post; trace := [] |}
  = (Resolved tt,
     {| store := set_loaded [post "a"; post "b"] 2 (set_reset one_post);
        trace := [ECall (ShowDialog delete_dialog);
                  ECall (Delete "posts" "a");
                  EToast "Item deleted successfully" "success";
                  ECall (Find "posts" (query_of posts_params posts_context one_post));
                  ECall (Count "posts" ∅)] |}).
Proof.
  apply (handleDelete_success happy_env posts_params posts_context one_post "a"
           one_post [post "b"] 2); reflexivity.
Defined.

(** *** [handleBulkDelete] *)

Lemma run_for_of_resolved {S} env (collection : string) (ids : list string)
    (w : World S) :
  (∀ j id, ids !! j = Some id →
     deleteObject env (calls is_delete (trace w) + j) collection id = Resolved tt) →
  run env (for_of ids (λ id, await (Delete collection id))) w =
    (Resolved tt,
     {| store := store w;
        trace := trace w ++ ((λ id, ECall (Delete collection id)) <$> ids) |}).
Proof.
  revert w. induction ids as [|id ids IH]; intros w Hok.
  - cbn. rewrite app_nil_r. by destruct w.
  - cbn [for_of].
    change (run env (await (Delete collection id)
                       ≫= λ _, for_of ids (λ id, await (Delete collection id))) w = ?r)
      with (run env (await (Delete collection id)
                       ≫= λ _, for_of ids (λ id, await (Delete collection id))) w = r).
    rewrite run_bind, run_await. cbn [kind_of answer].
    rewrite <- (Nat.add_0_r (calls is_delete (trace w))).
    rewrite (Hok 0%nat id) by done.
    rewrite IH.
    + cbn. by rewrite <- app_assoc.
    + intros j y Hy. rewrite calls_delete_record.
      replace (Datatypes.S (calls is_delete (trace w)) + j)%nat
        with (calls is_delete (trace w) + Datatypes.S j)%nat by lia.
      by apply Hok.
Qed.

Lemma calls_find_deletes collection (ids : list string) :
  calls is_find ((λ id, ECall (Delete collection id)) <$> ids) = 0%nat.
Proof. induction ids as [|id ids IH]; [done|]. unfold calls in *. cbn. done. Qed.

Lemma calls_count_deletes collection (ids : list string) :
  calls is_count ((λ id, ECall (Delete collection id)) <$> ids) = 0%nat.
Proof. induction ids as [|id ids IH]; [done|]. unfold calls in *. cbn. done. Qed.

(** A bulk delete that the user declines deletes nothing and leaves the
    selection as it is. *)
Theorem handleBulkDelete_declined
    (env : Env) (params : Params) (context : Context) (state : ListState)
    (w : World ListState) :
  selected state ≠ [] →
  confirms env (calls is_dialog (trace w))
    (bulk_delete_dialog (length (selected state))) = false →
  run env (handleBulkDelete params context state) w
    = (Resolved tt,
       {| store := store w;
          trace := trace w
                     ++ [ECall (ShowDialog
                                  (bulk_delete_dialog (length (selected state))))] |}).
Proof.
  intros Hne Hno. unfold handleBulkDelete.
  destruct (selected state) as [|x xs] eqn:Hsel; [done|].
  cbn [length Nat.eqb].
  rewrite run_try_catch. unfold BasePage.showConfirmDialog at 1.
  fold (bulk_delete_dialog (Datatypes.S (length xs))).
  rewrite run_bind,
    (run_await env (ShowDialog (bulk_delete_dialog (Datatypes.S (length xs))))).
  cbn [kind_of answer]. cbn [length] in Hno. by rewrite Hno.
Qed.

Lemma handleBulkDelete_declined_witness :
  run declining_env (handleBulkDelete posts_params posts_context three_selected)
    {| store := three_selected; trace := [] |}
  = (Resolved tt,
     {| store := three_selected;
        trace := [ECall (ShowDialog (bulk_delete_dialog 3))] |}).
Proof.
  apply (handleBulkDelete_declined declining_env posts_params posts_context
           three_selected {| store := three_selected; trace := [] |}).
  - discriminate.
  - reflexivity.
Defined.

(** A confirmed bulk delete in which every call succeeds: one delete
    call per selected id, in the order of the selection and one after
    the other, then the toast with their number, the reset and one
    reload (the one of the handler's render, as for [handleDelete]). *)
Theorem handleBulkDelete_success
    (env : Env) (params : Params) (context : Context) (state s0 : ListState)
    (objs : list (gmap string Value)) (n : Z) :
  selected state ≠ [] →
  confirms env 0 (bulk_delete_dialog (length (selected state))) = true →
  (∀ j id, selected state !! j = Some id →
     deleteObject env j (getCollectionName params) id = Resolved tt) →
  findObjects env 0 (getCollectionName params) (query_of params context state)
    = Resolved objs →
  countObjects env 0 (getCollectionName params) (buildWhere params context state)
    = Resolved n →
  run env (handleBulkDelete params context state) {| store := s0; trace := [] |}
    = (Resolved tt,
       {| store := set_loaded (objects state ++ objs) n (set_reset s0);
          trace := ECall (ShowDialog (bulk_delete_dialog (length (selected state))))
                   :: ((λ id, ECall (Delete (getCollectionName params) id))
                         <$> selected state)
                   ++ [EToast (pretty (length (selected state))
                                 +:+ " items deleted successfully") "success";
                       ECall (Find (getCollectionName params)
                                (query_of params context state));
                       ECall (Count (getCollectionName params)
                                (buildWhere params context state))] |}).
Proof.
  intros Hne Hyes Hdel Hfind Hcount. unfold handleBulkDelete.
  destruct (length (selected state) =? 0)%nat eqn:Hlen.
  { apply Nat.eqb_eq in Hlen. by apply nil_length_inv in Hlen. }
  rewrite run_try_catch. unfold BasePage.showConfirmDialog at 1.
  fold (bulk_delete_dialog (length (selected state))).
  rewrite run_bind,
    (run_await env (ShowDialog (bulk_delete_dialog (length (selected state))))).
  cbn [kind_of answer trace]. change (calls is_dialog []) with 0%nat.
  rewrite Hyes, run_bind, run_for_of_resolved.
  - rewrite run_bind. cbn [BasePage.showToast emit run].
    rewrite run_bind. cbn [reset setState run].
    rewrite run_loadData.
    cbn [record update store trace app].
    assert (∀ kind, kind (ECall (ShowDialog (bulk_delete_dialog (length (selected state))))) = false →
              kind (EToast (pretty (length (selected state))
                              +:+ " items deleted successfully") "success") = false →
              calls kind ((λ id, ECall (Delete (getCollectionName params) id))
                            <$> selected state) = 0%nat →
              calls kind
                ((ECall (ShowDialog (bulk_delete_dialog (length (selected state))))
                  :: ((λ id, ECall (Delete (getCollectionName params) id))
                        <$> selected state))
                 ++ [EToast (pretty (length (selected state))
                               +:+ " items deleted successfully") "success"]) = 0%nat)
      as Hcalls.
    { intros kind Hk1 Hk2 Hk3. rewrite calls_snoc, Hk2.
      unfold calls in *. cbn [List.filter]. rewrite Hk1. lia. }
    rewrite !Hcalls by (done || apply calls_find_deletes || apply calls_count_deletes).
    rewrite Hfind, Hcount. cbn [app]. by rewrite <- !app_assoc.
  - intros j id Hid. cbn. by apply Hdel.
Qed.

Lemma handleBulkDelete_success_witness :
  run happy_env (handleBulkDelete posts_params posts_context three_selected)
    {| store := three_selected; trace := [] |}
  = (Resolved tt,
     {| store := set_loaded [post "a"; post "b"; post "c"; post "b"] 2
                   (set_reset three_selected);
        trace := [ECall (ShowDialog (bulk_delete_dialog 3));
                  ECall (Delete "posts" "a");
                  ECall (Delete "posts" "b");
                  ECall (Delete "posts" "c");
                  EToast "3 items deleted successfully" "success";
                  ECall (Find "posts"
                           (query_of posts_params posts_context three_selected));
                  ECall (Count "posts" ∅)] |}).
Proof.
  apply (handleBulkDelete_success happy_env posts_params posts_context
           three_selected three_selected [post "b"] 2); try reflexivity.
  discriminate.
Defined.

(** *** [handleSearchChange] and its timers *)


(** The timer callback makes exactly one find call. *)
Lemma search_callback_one_find env params context state (w : World ListState) :
  calls is_find (trace (snd (run env (search_callback params context state) w)))
    = Datatypes.S (calls is_find (trace w)).
Proof.
  unfold search_callback.
  change (run env (reset ≫= λ _, loadData params context state) w)
    with (run env (loadData params context state) (update set_reset w)).
  rewrite run_loadData.
  destruct (findObjects env _ _ _) as [objs|e];
    [destruct (countObjects env _ _ _) as [n|e]|];
    cbn [snd store trace update]; rewrite calls_app; cbn; lia.
Qed.

Lemma advance_single_timer params context env t (rt : Runtime) :
  single_timer rt →
  single_timer (advance params context env t rt)
  ∧ (calls is_find (trace (world (advance params context env t rt)))
       + length (timers (advance params context env t rt))
     = calls is_find (trace (world rt)) + length (timers rt))%nat.
Proof.
  intros [Hnone | (tm & Htm & Href)]; unfold advance, single_timer.
  - rewrite Hnone. cbn. split; [by left|lia].
  - rewrite Htm. cbn [List.filter timers searchTimeoutRef world foldl].
    destruct (due tm <=? t)%nat; cbn [negb foldl length].
    + rewrite search_callback_one_find. split; [by left|lia].
    + split; [|lia]. right. by exists tm.
Qed.

Lemma handleSearchChange_single_timer state value (rt : Runtime) :
  single_timer rt →
  single_timer (handleSearchChange state value rt)
  ∧ trace (world (handleSearchChange state value rt)) = trace (world rt)
  ∧ length (timers (handleSearchChange state value rt)) = 1%nat.
Proof.
  intros [Hnone | (tm & Htm & Href)]; unfold handleSearchChange, single_timer.
  - destruct (searchTimeoutRef rt) as [id|]; cbn; rewrite Hnone; cbn;
      (split; [|done]); right; by eexists.
  - rewrite Href. cbn. rewrite Htm. cbn. rewrite Pos.eqb_refl. cbn.
    split; [|done]. right. by eexists.
Qed.

Lemma keystrokes_single_timer params context env strokes (rt : Runtime) :
  single_timer rt →
  single_timer (keystrokes params context env strokes rt)
  ∧ (calls is_find (trace (world (keystrokes params context env strokes rt)))
       + length (timers (keystrokes params context env strokes rt))
     ≤ calls is_find (trace (world rt)) + length (timers rt) + length strokes)%nat.
Proof.
  revert rt. induction strokes as [|[[t st] v] strokes IH]; intros rt Hinv.
  - cbn. split; [done|lia].
  - cbn [keystrokes length].
    destruct (advance_single_timer params context env t rt Hinv) as (Ha & Heq).
    destruct (handleSearchChange_single_timer st v _ Ha) as (Hh & Htr & Hlen).
    destruct (IH _ Hh) as (Hk & Hcalls).
    split; [done|]. rewrite Htr, Hlen in Hcalls. lia.
Qed.

(** However the keystrokes are spaced, at most one reload is ever
    pending on a page: after any sequence of [handleSearchChange] calls
    and waits there is no timer or exactly one, the one
    [searchTimeoutRef] names; and the timers have made at most one find
    call per keystroke. *)
Theorem one_pending_reload
    (params : Params) (context : Context) (env : Env)
    (strokes : list (nat * ListState * string)) (s0 : ListState) (t : nat) :
  let rt := advance params context env t
              (keystrokes params context env strokes (mounted s0)) in
  (length (timers rt) ≤ 1)%nat
  ∧ single_timer rt
  ∧ (calls is_find (trace (world rt)) ≤ length strokes)%nat.
Proof.
  cbn zeta.
  destruct (keystrokes_single_timer params context env strokes (mounted s0))
    as (Hk & Hcalls); [by left|].
  destruct (advance_single_timer params context env t _ Hk) as (Ha & Heq).
  split; [|split; [done|]].
  - destruct Ha as [-> | (tm & -> & _)]; cbn; lia.
  - cbn in Hcalls. lia.
Qed.



End ListMore.

(** ** More on the Form Presenter *)

Module FormMore.
Import FormPresenter Claims Fixtures Shapes RunFacts.

(** *** [loadData] *)

(** On the route ["new"], and when the route has no id or an empty one,
    [loadData] makes no call at all: it clears [loading] and leaves
    the object, the changes and the dirty flag as they are. *)
Theorem loadData_without_record
    (env : Env) (params : Params) (w : World FormState) :
  p_id params = None ∨ p_id params = Some "" ∨ p_id params = Some "new" →
  run env (loadData params) w
    = (Resolved tt, {| store := set_loading false (store w); trace := trace w |}).
Proof.
  intros H. unfold loadData, existing_id.
  destruct H as [-> | [-> | ->]]; reflexivity.
Qed.

Lemma loadData_without_record_witness :
  run happy_env (loadData users_params) {| store := user42_edited; trace := [] |}
  = (Resolved tt, {| store := set_loading false user42_edited; trace := [] |}).
Proof.
  apply (loadData_without_record happy_env users_params
           {| store := user42_edited; trace := [] |}).
  right. right. reflexivity.
Defined.

(** On the route of an existing record [loadData] makes one get call.
    When it succeeds only the object is replaced: edits recorded in
    [change] and the dirty flag survive the reload.  When it is
    rejected the object stays and one error dialog is shown.  Either
    way [loading] ends false. *)
Theorem loadData_existing_record
    (env : Env) (params : Params) (id : string) (w : World FormState) :
  p_id params = Some id → id ≠ "" → id ≠ "new" →
  run env (loadData params) w =
    match getObject env (calls is_get (trace w)) (getCollectionName params) id with
    | Resolved o =>
        (Resolved tt,
         {| store := set_loaded o (store w);
            trace := trace w ++ [ECall (Get (getCollectionName params) id)] |})
    | Rejected e =>
        (Resolved tt,
         {| store := set_loading false (store w);
            trace := trace w ++ [ECall (Get (getCollectionName params) id);
                                 ECall (ShowDialog (error_dialog e))] |})
    end.
Proof.
  intros Hid Hne Hnew. unfold loadData, existing_id. rewrite Hid.
  apply String.eqb_neq in Hne, Hnew. rewrite Hne, Hnew.
  cbn -[calls getCollectionName].
  destruct (getObject env _ _ _) as [o|e]; cbn -[getCollectionName];
    unfold record, update; cbn [store trace]; by rewrite <- ?app_assoc.
Qed.

Lemma loadData_existing_record_witness :
  run happy_env (loadData user42_params) {| store := user42_edited; trace := [] |}
  = (Resolved tt,
     {| store := set_loaded user42 user42_edited;
        trace := [ECall (Get "users" "42")] |}).
Proof.
  apply (loadData_existing_record happy_env user42_params "42"
           {| store := user42_edited; trace := [] |}).
  - reflexivity.
  - discriminate.
  - discriminate.
Defined.

(** *** [handleSubmit] *)

(** What a submit that passes the guard and the validation does, by
    the answer of the upsert use case. *)
Lemma run_handleSubmit env params context state (w : World FormState) :
  submitting state = false →
  Validator.isValid (validateForm params context state) = true →
  run env (handleSubmit params context state) w =
    match upsertObject env (calls is_upsert (trace w)) (getCollectionName params)
            (object state) with
    | Resolved result =>
        (Resolved tt,
         {| store := set_saved (store w);
            trace := trace w
                       ++ [ECall (Upsert (getCollectionName params) (object state));
                           EToast "Data saved successfully" "success"]
                       ++ (if is_new params
                           then [ENavigate ("/collections/" +:+ getCollectionName params
                                              +:+ "/form/"
                                              +:+ to_string (JS.get result "id"))]
                           else []) |})
    | Rejected e =>
        (Resolved tt,
         {| store := set_submitting false (store w);
            trace := trace w
                       ++ [ECall (Upsert (getCollectionName params) (object state));
                           ECall (ShowDialog (error_dialog e))] |})
    end.
Proof.
  intros Hs Hv. unfold handleSubmit. rewrite Hs, Hv.
  cbn -[calls getCollectionName is_new to_string JS.get].
  destruct (upsertObject env _ _ _) as [result|e];
    cbn -[getCollectionName is_new to_string JS.get].
  - destruct (is_new params); cbn -[getCollectionName to_string JS.get];
      unfold record, update; cbn [store trace]; by rewrite <- ?app_assoc.
  - unfold record, update. cbn [store trace]. by rewrite <- ?app_assoc.
Qed.



(** A save that succeeds shows the success toast, clears [dirty] and
    [submitting] and, on the route ["new"] only, navigates to the edit
    form of the id the use case returned.  The returned record is not
    written into the state: [object] stays what it was. *)
Theorem handleSubmit_saved
    (env : Env) (params : Params) (context : Context) (state : FormState)
    (w : World FormState) (result : gmap string Value) :
  submitting state = false →
  Validator.isValid (validateForm params context state) = true →
  upsertObject env (calls is_upsert (trace w)) (getCollectionName params)
    (object state) = Resolved result →
  run env (handleSubmit params context state) w
    = (Resolved tt,
       {| store := set_saved (store w);
          trace := trace w
                     ++ [ECall (Upsert (getCollectionName params) (object state));
                         EToast "Data saved successfully" "success"]
                     ++ (if is_new params
                         then [ENavigate ("/collections/" +:+ getCollectionName params
                                            +:+ "/form/"
                                            +:+ to_string (JS.get result "id"))]
                         else []) |})
  ∧ object (set_saved (store w)) = object (store w).
Proof.
  intros Hs Hv Hup. split; [|done]. by rewrite run_handleSubmit, Hup.
Qed.

Lemma handleSubmit_saved_witness :
  run assigning_env
      (handleSubmit users_params users_context
         (edited initial "name" (VStr "Widget")))
      {| store := edited initial "name" (VStr "Widget"); trace := [] |}
  = (Resolved tt,
     {| store := set_saved (edited initial "name" (VStr "Widget"));
        trace := [ECall (Upsert "users" {[ "name" := VStr "Widget" ]});
                  EToast "Data saved successfully" "success";
                  ENavigate "/collections/users/form/7"] |})
  ∧ object (set_saved (edited initial "name" (VStr "Widget")))
      = {[ "name" := VStr "Widget" ]}.
Proof.
  exact (handleSubmit_saved assigning_env users_params users_context
           (edited initial "name" (VStr "Widget"))
           {| store := edited initial "name" (VStr "Widget"); trace := [] |}
           (<["id" := VNum 7]> {[ "name" := VStr "Widget" ]})
           eq_refl eq_refl eq_refl).
Defined.

(** A save that the use case rejects shows one error dialog and clears
    [submitting]; the form stays dirty, keeps its edits and does not
    navigate, so the user can submit again. *)
Theorem handleSubmit_rejected
    (env : Env) (params : Params) (context : Context) (state : FormState)
    (w : World FormState) (err : Error) :
  submitting state = false →
  Validator.isValid (validateForm params context state) = true →
  upsertObject env (calls is_upsert (trace w)) (getCollectionName params)
    (object state) = Rejected err →
  run env (handleSubmit params context state) w
    = (Resolved tt,
       {| store := set_submitting false (store w);
          trace := trace w
                     ++ [ECall (Upsert (getCollectionName params) (object state));
                         ECall (ShowDialog (error_dialog err))] |}).
Proof.
  intros Hs Hv Hup. by rewrite run_handleSubmit, Hup.
Qed.

Lemma handleSubmit_rejected_witness :
  run failing_env (handleSubmit user42_params users_context user42_edited)
    {| store := user42_edited; trace := [] |}
  = (Resolved tt,
     {| store := set_submitting false user42_edited;
        trace := [ECall (Upsert "users" (object user42_edited));
                  ECall (ShowDialog (error_dialog offline))] |}).
Proof.
  apply (handleSubmit_rejected failing_env user42_params users_context
           user42_edited {| store := user42_edited; trace := [] |} offline);
    reflexivity.
Defined.

(** *** [handleCancel] *)

(** Leaving the form: a clean form navigates to the list at once,
    without a dialog; a dirty form asks first and navigates only when
    the user confirms.  The state is never touched. *)
Theorem handleCancel_asks_when_dirty
    (env : Env) (params : Params) (state : FormState) (w : World FormState) :
  let r := run env (handleCancel params state) w in
  let list_path := "/collections/" +:+ getCollectionName params in
  fst r = Resolved tt
  ∧ store (snd r) = store w
  ∧ (dirty state = false → trace (snd r) = trace w ++ [ENavigate list_path])
  ∧ (dirty state = true →
     confirms env (calls is_dialog (trace w)) unsaved_dialog = true →
     trace (snd r)
       = trace w ++ [ECall (ShowDialog unsaved_dialog); ENavigate list_path])
  ∧ (dirty state = true →
     confirms env (calls is_dialog (trace w)) unsaved_dialog = false →
     trace (snd r) = trace w ++ [ECall (ShowDialog unsaved_dialog)]).
Proof.
  cbn zeta. unfold handleCancel.
  destruct (dirty state).
  - unfold BasePage.showConfirmDialog. fold unsaved_dialog.
    rewrite run_bind, (run_await env (ShowDialog unsaved_dialog)).
    cbn [kind_of answer].
    destruct (confirms env (calls is_dialog (trace w)) unsaved_dialog);
      cbn -[getCollectionName]; repeat split; try done.
    intros _ _. by rewrite <- app_assoc.
  - cbn -[getCollectionName]. repeat split; done.
Qed.

Lemma handleCancel_asks_when_dirty_witness :
  trace (snd (run declining_env
                (handleCancel user42_params user42_edited)
                {| store := user42_edited; trace := [] |}))
  = [ECall (ShowDialog unsaved_dialog)].
Proof.
  apply (handleCancel_asks_when_dirty declining_env user42_params
           user42_edited {| store := user42_edited; trace := [] |});
    reflexivity.
Defined.

(** *** [handleFieldChange] *)

(** Two [handleFieldChange] calls from the same render do not add up:
    each writes the snapshot's object with its own field set, so the
    state ends as if only the second call had been made, and a
    different field set by the first call reads as it did in the
    snapshot. *)
Theorem handleFieldChange_same_render
    (state : FormState) (f1 f2 : string) (v1 v2 : Value) (w : World FormState) :
  let w1 := snd (start (handleFieldChange state f1 v1) w) in
  let w2 := snd (start (handleFieldChange state f2 v2) w1) in
  w2 = snd (start (handleFieldChange state f2 v2) w)
  ∧ (f1 ≠ f2 →
     JS.get (object (store w2)) f1 = JS.get (object state) f1
     ∧ change (store w2) !! f1 = change state !! f1).
Proof.
  cbn. split; [done|]. intros Hne. unfold JS.get.
  by rewrite !lookup_insert_ne.
Qed.

Lemma handleFieldChange_same_render_witness :
  let w2 := snd (start (handleFieldChange user42_loaded "email" (VStr "new@example.com"))
                   (snd (start (handleFieldChange user42_loaded "name" (VStr "New"))
                           {| store := user42_loaded; trace := [] |}))) in
  JS.get (object (store w2)) "name" = VStr "Old"
  ∧ change (store w2) !! "name" = None.
Proof.
  apply (handleFieldChange_same_render user42_loaded "name" "email"
           (VStr "New") (VStr "new@example.com")
           {| store := user42_loaded; trace := [] |}).
  discriminate.
Defined.

Lemma form_state_eq (s1 s2 : FormState) :
  loading s1 = loading s2 → object s1 = object s2 → change s1 = change s2 →
  advanced s1 = advanced s2 → dirty s1 = dirty s2 →
  submitting s1 = submitting s2 → s1 = s2.
Proof. destruct s1, s2. cbn. by intros -> -> -> -> -> ->. Qed.

(** Edits made in successive renders do add up: edits of different
    fields give the same form in either order, and a second edit of
    the same field replaces the first. *)
Theorem edits_compose
    (state : FormState) (f1 f2 : string) (v1 v2 : Value) :
  (f1 ≠ f2 →
     edited (edited state f1 v1) f2 v2 = edited (edited state f2 v2) f1 v1)
  ∧ edited (edited state f1 v1) f1 v2 = edited state f1 v2.
Proof.
  unfold edited. cbn. split.
  - intros Hne. apply form_state_eq; cbn; try done; by apply insert_insert_ne.
  - apply form_state_eq; cbn; try done; by apply insert_insert_eq.
Qed.

Lemma edits_compose_witness :
  edited (edited user42_loaded "name" (VStr "New")) "email" (VStr "new@example.com")
  = edited (edited user42_loaded "email" (VStr "new@example.com")) "name" (VStr "New").
Proof.
  apply (proj1 (edits_compose user42_loaded "name" "email"
                  (VStr "New") (VStr "new@example.com"))).
  discriminate.
Defined.

(** Every recorded change is what the object shows: if this holds in a
    render, it holds after an edit made from it, and the edit itself is
    recorded and shown. *)
Theorem change_within_object
    (state : FormState) (f : string) (v : Value) :
  change state ⊆ object state →
  change (edited state f v) ⊆ object (edited state f v)
  ∧ change (edited state f v) !! f = Some v
  ∧ object (edited state f v) !! f = Some v.
Proof.
  intros Hsub. unfold edited. cbn. split; [by apply insert_mono|].
  by rewrite !lookup_insert_eq.
Qed.

Lemma change_within_object_witness :
  change (edited user42_loaded "name" (VStr "New"))
    ⊆ object (edited user42_loaded "name" (VStr "New"))
  ∧ change (edited user42_loaded "name" (VStr "New")) !! "name" = Some (VStr "New")
  ∧ object (edited user42_loaded "name" (VStr "New")) !! "name" = Some (VStr "New").
Proof.
  apply (change_within_object user42_loaded "name" (VStr "New")).
  apply map_empty_subseteq.
Defined.

End FormMore.
